(** * Ownproject: a shallow embedding of [src/try.py]

    The Python module is a flat collection of helpers: a toy calculator with
    a history log, Fibonacci and primality helpers, a JSON file reader, a
    byte-size formatter and a retry decorator.  Each of them is embedded
    below as a Rocq function that follows the statements of the source.

    Python integers are unbounded and are modelled by [Z].  Python floats are
    IEEE 754 binary64 numbers and are modelled by [spec_float] with the
    operations of the standard library's [SpecFloat] at precision 53.
    Exceptions are explicit: a fallible computation returns a [result]. *)

From Stdlib Require Import ZArith List Lia Bool String Ascii Znumtheory.
From Stdlib Require Import DecimalString Sorting.Sorted.
From Stdlib Require Import Floats.SpecFloat.
From stdpp Require Import base option list strings gmap.

Local Open Scope Z_scope.

(** ** Exceptions and results *)

(** The exception classes that the module can raise or meet.  Every class
    derives from [Exception] except the ones listed under [BaseOnly]
    (KeyboardInterrupt, SystemExit, GeneratorExit), which derive from
    [BaseException] alone and are not caught by [except Exception]. *)
Inductive exn_class :=
  | ValueError
  | OverflowError
  | ZeroDivisionError
  | IndexError
  | FileNotFoundError
  | JSONDecodeError
  | OtherException (name : string)
  | BaseOnly (name : string).

Record exn := mkExn { exn_cls : exn_class; exn_msg : string }.

Definition is_Exception (e : exn) : bool :=
  match exn_cls e with
  | BaseOnly _ => false
  | _ => true
  end.

Inductive result (A : Type) :=
  | Ok (a : A)
  | Raise (e : exn).
Arguments Ok {A} a.
Arguments Raise {A} e.

Definition rbind {A B} (r : result A) (k : A -> result B) : result B :=
  match r with
  | Ok a => k a
  | Raise e => Raise e
  end.

Notation "'let*' x ':=' r 'in' k" := (rbind r (fun x => k))
  (at level 10, x name, r at level 100, k at level 200).

(** ** Python numbers *)

Module Float.

Definition prec : Z := 53.
Definition emax : Z := 1024.

(** [float(n)] for an [int]: the nearest double, ties to even;
    [OverflowError] when the rounded value exceeds the largest double. *)
Definition of_int (n : Z) : result spec_float :=
  match binary_normalize prec emax n 0 false with
  | S754_infinity _ =>
      Raise (mkExn OverflowError "int too large to convert to float")
  | f => Ok f
  end.

(** [x ** 0.5] on a float: the C library's [pow], which on the finite
    positive doubles that [is_prime] passes is the IEEE square root. *)
Definition pow_half (x : spec_float) : spec_float := SFsqrt prec emax x.

(** [int(x)]: truncation toward zero. *)
Definition to_int (x : spec_float) : result Z :=
  match x with
  | S754_zero _ => Ok 0
  | S754_infinity _ =>
      Raise (mkExn OverflowError "cannot convert float infinity to integer")
  | S754_nan => Raise (mkExn ValueError "cannot convert float NaN to integer")
  | S754_finite s m e =>
      let a := if 0 <=? e then Zpos m * 2 ^ e else Zpos m / 2 ^ (- e) in
      Ok (if s then - a else a)
  end.

Definition div (x y : spec_float) : spec_float := SFdiv prec emax x y.
Definition add (x y : spec_float) : spec_float := SFadd prec emax x y.
Definition sub (x y : spec_float) : spec_float := SFsub prec emax x y.
Definition mul (x y : spec_float) : spec_float := SFmul prec emax x y.

(** The literal [1024.0]. *)
Definition f1024 : spec_float := S754_finite false 4503599627370496 (-42).

End Float.

(** [range(start, stop, step)] for a positive [step], as the list it yields. *)
Definition py_range (start stop step : Z) : list Z :=
  map (fun k => start + Z.of_nat k * step)
      (seq 0 (Z.to_nat ((stop - start + step - 1) / step))).

(** [l[i]] on a list: negative indices count from the end, and an index out
    of range raises [IndexError]. *)
Definition py_getitem {A} (l : list A) (i : Z) : result A :=
  let n := Z.of_nat (length l) in
  let j := if i <? 0 then i + n else i in
  if (0 <=? j) && (j <? n) then
    match l !! Z.to_nat j with
    | Some x => Ok x
    | None => Raise (mkExn IndexError "list index out of range")
    end
  else Raise (mkExn IndexError "list index out of range").

(** ** [fibonacci] *)

Fixpoint fib_loop (idx : list Z) (fib : list Z) : result (list Z) :=
  match idx with
  | [] => Ok fib
  | i :: idx' =>
      let* a := py_getitem fib (i - 1) in
      let* b := py_getitem fib (i - 2) in
      fib_loop idx' (fib ++ [a + b])
  end.

Definition fibonacci (n : Z) : result (list Z) :=
  if n <=? 0 then Ok []
  else if n =? 1 then Ok [0]
  else if n =? 2 then Ok [0; 1]
  else fib_loop (py_range 2 n 1) [0; 1].

(** The Fibonacci sequence 0, 1, 1, 2, 3, ... by its recurrence. *)
Fixpoint fib_seq (k : nat) : Z :=
  match k with
  | O => 0
  | S k' =>
      match k' with
      | O => 1
      | S k'' => fib_seq k' + fib_seq k''
      end
  end.

(** ** [is_prime] and [find_primes] *)

Fixpoint is_prime_loop (num : Z) (idx : list Z) : bool :=
  match idx with
  | [] => true
  | i :: idx' => if num mod i =? 0 then false else is_prime_loop num idx'
  end.

Definition is_prime (num : Z) : result bool :=
  if num <? 2 then Ok false
  else if num =? 2 then Ok true
  else if num mod 2 =? 0 then Ok false
  else
    let* x := Float.of_int num in
    let* r := Float.to_int (Float.pow_half x) in
    Ok (is_prime_loop num (py_range 3 (r + 1) 2)).

(** The list comprehension [[num for num in ... if is_prime(num)]]: the
    first call that raises ends the comprehension with that exception. *)
Fixpoint find_primes_loop (nums : list Z) : result (list Z) :=
  match nums with
  | [] => Ok []
  | num :: nums' =>
      let* b := is_prime num in
      let* rest := find_primes_loop nums' in
      Ok (if b then num :: rest else rest)
  end.

Definition find_primes (limit : Z) : result (list Z) :=
  find_primes_loop (py_range 2 (limit + 1) 1).


(** ** Text of numbers *)

(** [str(n)] for an [int]. *)
Definition str_int (n : Z) : string := NilZero.string_of_int (Z.to_int n).

Fixpoint zeros (n : nat) : string :=
  match n with
  | O => EmptyString
  | S n' => String "0" (zeros n')
  end.

Module FloatText.

(** Round a non-negative rational [n / d] to the nearest integer, ties to
    the even one. *)
Definition round_half_even (n d : Z) : Z :=
  let q := n / d in
  let r := n mod d in
  match 2 * r ?= d with
  | Lt => q
  | Gt => q + 1
  | Eq => if Z.even q then q else q + 1
  end.

(** A non-negative rational to one decimal place, the way the format
    specification [.1f] prints it: correctly rounded, ties to even. *)
Definition fixed1 (n d : Z) : string :=
  let t := round_half_even (10 * n) d in
  str_int (t / 10) +:+ "." +:+ str_int (t mod 10).

(** The exact value of a positive finite double [m * 2^e] as a fraction. *)
Definition numerator (m : positive) (e : Z) : Z :=
  if 0 <=? e then Zpos m * 2 ^ e else Zpos m.
Definition denominator (e : Z) : Z :=
  if 0 <=? e then 1 else 2 ^ (- e).

(** [format(x, '.1f')] on a float. *)
Definition format_1f (x : spec_float) : string :=
  match x with
  | S754_nan => "nan"
  | S754_infinity s => if s then "-inf" else "inf"
  | S754_zero s => if s then "-0.0" else "0.0"
  | S754_finite s m e =>
      (if s then "-" else EmptyString) +:+ fixed1 (numerator m e) (denominator e)
  end.

(** *** [repr(x)]: the shortest decimal string that reads back as [x] *)

(** The decimal exponent [k] of a positive rational: 10^k <= n/d < 10^(k+1). *)
Fixpoint dec_exp_below (fuel : nat) (n d j : Z) : Z :=
  match fuel with
  | O => - j
  | S fuel' =>
      if d <=? n * 10 ^ j then - j else dec_exp_below fuel' n d (j + 1)
  end.

Definition dec_exp (n d : Z) : Z :=
  if d <=? n then Z.of_nat (String.length (str_int (n / d))) - 1
  else dec_exp_below 400 n d 1.

(** The decimals with [p] significant digits next to [n / d], written
    [c * 10^t]: the one among them that lies in the rounding interval
    [lo / d .. hi / d] of the double and is nearest to it, if any. *)
Definition candidate (n lo hi d : Z) (incl : bool) (k p : Z)
  : option (Z * Z) :=
  let t := k - p + 1 in
  let A := 10 ^ Z.max t 0 * d in
  let B := 10 ^ Z.max (- t) 0 in
  let c1 := (n * B) / A in
  let c2 := c1 + 1 in
  let inside c :=
    if incl then (lo * B <=? c * A) && (c * A <=? hi * B)
    else (lo * B <? c * A) && (c * A <? hi * B) in
  let d1 := n * B - c1 * A in
  let d2 := c2 * A - n * B in
  match inside c1, inside c2 with
  | true, true =>
      match d1 ?= d2 with
      | Lt => Some (c1, t)
      | Gt => Some (c2, t)
      | Eq => Some (if Z.even c1 then c1 else c2, t)
      end
  | true, false => Some (c1, t)
  | false, true => Some (c2, t)
  | false, false => None
  end.

Fixpoint shortest (ps : list Z) (n lo hi d : Z) (incl : bool) (k : Z)
  : Z * Z :=
  match ps with
  | [] => (n / d, 0)
  | p :: ps' =>
      match candidate n lo hi d incl k p with
      | Some r => r
      | None => shortest ps' n lo hi d incl k
      end
  end.

Fixpoint strip_zeros (fuel : nat) (c t : Z) : Z * Z :=
  match fuel with
  | O => (c, t)
  | S fuel' =>
      if c mod 10 =? 0 then strip_zeros fuel' (c / 10) (t + 1) else (c, t)
  end.

(** The digits and the position of the decimal point of [repr]: the value
    printed is [0.digits * 10^decpt]. *)
Definition repr_digits (m : positive) (e : Z) : string * Z :=
  let boundary := (Zpos m =? 2 ^ 52) && (-1074 <? e) in
  let s := Z.max (e - 2) 0 in
  let d := 2 ^ Z.max (2 - e) 0 in
  let n := 4 * Zpos m * 2 ^ s in
  let lo := (4 * Zpos m - (if boundary then 1 else 2)) * 2 ^ s in
  let hi := (4 * Zpos m + 2) * 2 ^ s in
  let k := dec_exp n d in
  let '(c, t) := shortest (py_range 1 18 1) n lo hi d (Z.even (Zpos m)) k in
  let '(c', t') := strip_zeros 400 c t in
  let ds := str_int c' in
  (ds, Z.of_nat (String.length ds) + t').

Definition exponent_text (x : Z) : string :=
  let a := str_int (Z.abs x) in
  (if x <? 0 then "-" else "+") +:+
  (if Z.abs x <? 10 then "0" +:+ a else a).

Definition repr_finite (m : positive) (e : Z) : string :=
  let '(ds, decpt) := repr_digits m e in
  let n := Z.of_nat (String.length ds) in
  if (decpt <=? -4) || (16 <? decpt) then
    match ds with
    | EmptyString => EmptyString
    | String c rest =>
        String c (match rest with
                  | EmptyString => EmptyString
                  | _ => "." +:+ rest
                  end) +:+ "e" +:+ exponent_text (decpt - 1)
    end
  else if decpt <=? 0 then "0." +:+ zeros (Z.to_nat (- decpt)) +:+ ds
  else if n <=? decpt then ds +:+ zeros (Z.to_nat (decpt - n)) +:+ ".0"
  else substring 0 (Z.to_nat decpt) ds +:+ "." +:+
       substring (Z.to_nat decpt) (Z.to_nat (n - decpt)) ds.

(** [repr(x)], which is also [str(x)] and what an f-string inserts. *)
Definition repr (x : spec_float) : string :=
  match x with
  | S754_nan => "nan"
  | S754_infinity s => if s then "-inf" else "inf"
  | S754_zero s => if s then "-0.0" else "0.0"
  | S754_finite s m e => (if s then "-" else EmptyString) +:+ repr_finite m e
  end.

End FloatText.

(** A Python number: an [int] or a [float]. *)
Inductive num :=
  | PInt (z : Z)
  | PFloat (x : spec_float).

Module PyNum.

Definition to_float (a : num) : result spec_float :=
  match a with
  | PInt z => Float.of_int z
  | PFloat x => Ok x
  end.

(** [a + b], [a - b], [a * b]: exact on two ints, otherwise both operands
    are converted to float and the IEEE operation applies. *)
Definition add (a b : num) : result num :=
  match a, b with
  | PInt x, PInt y => Ok (PInt (x + y))
  | _, _ =>
      let* x := to_float a in
      let* y := to_float b in
      Ok (PFloat (Float.add x y))
  end.

Definition sub (a b : num) : result num :=
  match a, b with
  | PInt x, PInt y => Ok (PInt (x - y))
  | _, _ =>
      let* x := to_float a in
      let* y := to_float b in
      Ok (PFloat (Float.sub x y))
  end.

Definition mul (a b : num) : result num :=
  match a, b with
  | PInt x, PInt y => Ok (PInt (x * y))
  | _, _ =>
      let* x := to_float a in
      let* y := to_float b in
      Ok (PFloat (Float.mul x y))
  end.

(** [a / b] on two ints: the exact quotient rounded once to the nearest
    double, ties to even. *)
Definition int_truediv (a b : Z) : result spec_float :=
  if b =? 0 then Raise (mkExn ZeroDivisionError "division by zero")
  else
    let negate := xorb (a <? 0) (b <? 0) in
    if a =? 0 then Ok (S754_zero negate)
    else
      let s :=
        Z.max 0 (Float.prec + 2 + Z.log2 (Z.abs b) - Z.log2 (Z.abs a)) in
      let '(q, r) := Z.div_eucl (Z.abs a * 2 ^ s) (Z.abs b) in
      match binary_round_aux Float.prec Float.emax negate q (- s)
              (new_location (Z.abs b) r) with
      | S754_infinity _ =>
          Raise (mkExn OverflowError
                   "integer division result too large for a float")
      | x => Ok x
      end.

Definition is_zero (x : spec_float) : bool :=
  SFeqb x (S754_zero false).

(** [a / b]: true division, always a float. *)
Definition truediv (a b : num) : result num :=
  match a, b with
  | PInt x, PInt y =>
      let* q := int_truediv x y in
      Ok (PFloat q)
  | _, _ =>
      let* x := to_float a in
      let* y := to_float b in
      if is_zero y
      then Raise (mkExn ZeroDivisionError "float division by zero")
      else Ok (PFloat (Float.div x y))
  end.

(** [b == 0]. *)
Definition eq_zero (b : num) : bool :=
  match b with
  | PInt z => z =? 0
  | PFloat x => is_zero x
  end.

(** [n < x] for an int and a float, compared exactly. *)
Definition int_lt_float (n : Z) (x : spec_float) : bool :=
  match x with
  | S754_nan => false
  | S754_infinity s => negb s
  | S754_zero _ => n <? 0
  | S754_finite s m e =>
      let v := FloatText.numerator m e in
      n * FloatText.denominator e <? (if s then - v else v)
  end.

Definition float_lt_int (x : spec_float) (n : Z) : bool :=
  match x with
  | S754_nan => false
  | S754_infinity s => s
  | S754_zero _ => 0 <? n
  | S754_finite s m e =>
      let v := FloatText.numerator m e in
      (if s then - v else v) <? n * FloatText.denominator e
  end.

(** [a < b]. *)
Definition lt (a b : num) : bool :=
  match a, b with
  | PInt x, PInt y => x <? y
  | PInt x, PFloat y => int_lt_float x y
  | PFloat x, PInt y => float_lt_int x y
  | PFloat x, PFloat y => SFltb x y
  end.

(** [str(a)], the text an f-string inserts for [{a}]. *)
Definition str (a : num) : string :=
  match a with
  | PInt z => str_int z
  | PFloat x => FloatText.repr x
  end.

(** [format(a, '.1f')]: an int is converted to float first. *)
Definition format_1f (a : num) : result string :=
  let* x := to_float a in
  Ok (FloatText.format_1f x).

End PyNum.

(** ** [Calculator] *)

(** List objects live in a store; a variable or an attribute holds a
    reference to one, so two holders of the same reference see each other's
    changes. *)
Abbreviation heap := (gmap positive (list string)).

(** [l.append(s)] on the list object at [l]. *)
Definition list_append (l : positive) (s : string) (h : heap) : heap :=
  <[l := (h !!! l) ++ [s]]> h.

(** [list.copy()]: a new list object with the same items. *)
Definition list_copy (l : positive) (h : heap) : positive * heap :=
  let l' := fresh (dom h) in
  (l', <[l' := h !!! l]> h).

Module Calculator.

(** An instance: its [history] attribute refers to a list object. *)
Record t := { history : positive }.

(** [Calculator()]: [self.history = []]. *)
Definition init (h : heap) : t * heap :=
  let l := fresh (dom h) in
  ({| history := l |}, <[l := []]> h).

(** The f-string [f"{a} <sym> {b} = {result}"]. *)
Definition entry (a : num) (sym : string) (b result : num) : string :=
  PyNum.str a +:+ " " +:+ sym +:+ " " +:+ PyNum.str b +:+ " = " +:+
  PyNum.str result.

Definition add (self : t) (a b : num) (h : heap) : result num * heap :=
  match PyNum.add a b with
  | Raise e => (Raise e, h)
  | Ok result =>
      (Ok result, list_append (history self) (entry a "+" b result) h)
  end.

Definition subtract (self : t) (a b : num) (h : heap)
  : result num * heap :=
  match PyNum.sub a b with
  | Raise e => (Raise e, h)
  | Ok result =>
      (Ok result, list_append (history self) (entry a "-" b result) h)
  end.

Definition multiply (self : t) (a b : num) (h : heap)
  : result num * heap :=
  match PyNum.mul a b with
  | Raise e => (Raise e, h)
  | Ok result =>
      (Ok result, list_append (history self) (entry a "*" b result) h)
  end.

Definition divide (self : t) (a b : num) (h : heap) : result num * heap :=
  if PyNum.eq_zero b
  then (Raise (mkExn ValueError "Cannot divide by zero"), h)
  else
    match PyNum.truediv a b with
    | Raise e => (Raise e, h)
    | Ok result =>
        (Ok result, list_append (history self) (entry a "/" b result) h)
    end.

Definition get_history (self : t) (h : heap) : positive * heap :=
  list_copy (history self) h.

(** A call of one of the five methods, and a caller that makes a sequence
    of calls, carrying on after a call that raised. *)
Inductive call :=
  | CAdd (a b : num)
  | CSubtract (a b : num)
  | CMultiply (a b : num)
  | CDivide (a b : num)
  | CGetHistory.

Definition run_call (self : t) (c : call) (h : heap) : heap :=
  match c with
  | CAdd a b => snd (add self a b h)
  | CSubtract a b => snd (subtract self a b h)
  | CMultiply a b => snd (multiply self a b h)
  | CDivide a b => snd (divide self a b h)
  | CGetHistory => snd (get_history self h)
  end.

Definition run_calls (self : t) (cs : list call) (h : heap) : heap :=
  fold_left (fun h c => run_call self c h) cs h.

(** What a call is expected to leave in the log: the formatted line of an
    arithmetic call that returned, nothing otherwise. *)
Definition logged (c : call) : option string :=
  match c with
  | CAdd a b =>
      match PyNum.add a b with
      | Ok r => Some (entry a "+" b r)
      | Raise _ => None
      end
  | CSubtract a b =>
      match PyNum.sub a b with
      | Ok r => Some (entry a "-" b r)
      | Raise _ => None
      end
  | CMultiply a b =>
      match PyNum.mul a b with
      | Ok r => Some (entry a "*" b r)
      | Raise _ => None
      end
  | CDivide a b =>
      if PyNum.eq_zero b then None
      else
        match PyNum.truediv a b with
        | Ok r => Some (entry a "/" b r)
        | Raise _ => None
        end
  | CGetHistory => None
  end.

(** What a caller can do to a list it holds a reference to. *)
Inductive mutation :=
  | MAppend (s : string)
  | MClear
  | MPop
  | MSetItem (i : nat) (s : string)
  | MReverse.

Definition mutate (l : positive) (m : mutation) (h : heap) : heap :=
  match m with
  | MAppend s => list_append l s h
  | MClear => <[l := []]> h
  | MPop => <[l := removelast (h !!! l)]> h
  | MSetItem i s => <[l := <[i := s]> (h !!! l)]> h
  | MReverse => <[l := rev (h !!! l)]> h
  end.

Definition mutate_all (l : positive) (ms : list mutation) (h : heap)
  : heap :=
  fold_left (fun h m => mutate l m h) ms h.

(** The outcome of an arithmetic call; [get_history] is not one. *)
Definition call_result (self : t) (c : call) (h : heap)
  : option (result num) :=
  match c with
  | CAdd a b => Some (fst (add self a b h))
  | CSubtract a b => Some (fst (subtract self a b h))
  | CMultiply a b => Some (fst (multiply self a b h))
  | CDivide a b => Some (fst (divide self a b h))
  | CGetHistory => None
  end.

(** A new calculator in an empty store. *)
Definition fresh_calculator : t * heap := init ∅.

End Calculator.

(** [r] is exactly the rational number [n / d]. *)
Definition exactly (r : num) (n d : Z) : Prop :=
  match r with
  | PInt z => z * d = n
  | PFloat (S754_zero _) => n = 0
  | PFloat (S754_finite s m e) =>
      (if s then - FloatText.numerator m e else FloatText.numerator m e) * d
      = n * FloatText.denominator e
  | PFloat _ => False
  end.

(** ** [format_file_size] *)

Definition size_units : list string := ["B"; "KB"; "MB"; "GB"; "TB"].

(** The [for unit in ...] loop: [size_bytes] starts as the int argument and
    is a float after the first division. *)
Fixpoint format_file_size_loop (units : list string) (size_bytes : num)
  : result string :=
  match units with
  | [] =>
      let* s := PyNum.format_1f size_bytes in
      Ok (s +:+ " PB")
  | unit :: units' =>
      if PyNum.lt size_bytes (PFloat Float.f1024) then
        let* s := PyNum.format_1f size_bytes in
        Ok (s +:+ " " +:+ unit)
      else
        let* size_bytes' := PyNum.truediv size_bytes (PFloat Float.f1024) in
        format_file_size_loop units' size_bytes'
  end.

Definition format_file_size (size_bytes : Z) : result string :=
  format_file_size_loop size_units (PInt size_bytes).

(** ** [read_json_file] *)

(** A parsed JSON document as [json.load] returns it. *)
#[local] Unset Elimination Schemes.
Inductive json :=
  | JNull
  | JBool (b : bool)
  | JNumber (n : num)
  | JString (s : string)
  | JArray (items : list json)
  | JObject (members : list (string * json)).
#[local] Set Elimination Schemes.

(** What [open(filepath, 'r')] meets at a path. *)
Inductive file_state :=
  | Missing
  | Unreadable (e : exn)
  | Readable (content : string).

Record world := mkWorld {
  files : string -> file_state;
  console : list string
}.

Definition print (line : string) (w : world) : world :=
  mkWorld (files w) (console w ++ [line]).

(** The body of the [try]: open the file and hand its text to [json.load],
    the library's parser, which is a parameter here. *)
Definition open_and_load (json_load : string -> result json)
  (filepath : string) (w : world) : result json :=
  match files w filepath with
  | Missing =>
      Raise (mkExn FileNotFoundError
               ("[Errno 2] No such file or directory: '" +:+ filepath +:+ "'"))
  | Unreadable e => Raise e
  | Readable content => json_load content
  end.

Definition read_json_file (json_load : string -> result json)
  (filepath : string) (w : world) : result json * world :=
  match open_and_load json_load filepath w with
  | Ok v => (Ok v, w)
  | Raise e =>
      match exn_cls e with
      | FileNotFoundError =>
          (Ok (JObject []), print ("File " +:+ filepath +:+ " not found") w)
      | JSONDecodeError =>
          (Ok (JObject []), print ("Error parsing JSON: " +:+ exn_msg e) w)
      | _ => (Raise e, w)
      end
  end.

(** ** [retry] *)

Module Retry.
Section Wrapper.

(** The wrapped function with its arguments applied: a call may change the
    state [S] it runs in, and returns a value or raises. *)
Context {S A : Type}.
Variable func : S -> result A * S.

(** The [for attempt in range(max_attempts)] loop of [wrapper].  It ends
    with the value of the call that returned, with an exception, or by
    falling out of the loop, where the wrapper returns [None]. *)
Fixpoint wrapper_loop (attempts : list Z) (max_attempts : Z)
  (s : S) (out : list string) : result (option A) * S * list string :=
  match attempts with
  | [] => (Ok None, s, out)
  | attempt :: attempts' =>
      match func s with
      | (Ok v, s') => (Ok (Some v), s', out)
      | (Raise e, s') =>
          if is_Exception e then
            if attempt =? max_attempts - 1 then (Raise e, s', out)
            else
              wrapper_loop attempts' max_attempts s'
                (out ++ ["Attempt " +:+ str_int (attempt + 1) +:+
                         " failed: " +:+ exn_msg e])
          else (Raise e, s', out)
      end
  end.

(** [retry(max_attempts)(func)], called. *)
Definition retry (max_attempts : Z) (s : S) (out : list string)
  : result (option A) * S * list string :=
  wrapper_loop (py_range 0 max_attempts 1) max_attempts s out.

(** The same function, counting its invocations. *)
Definition counted (sc : S * nat) : result A * (S * nat) :=
  let '(r, s') := func (fst sc) in (r, (s', Datatypes.S (snd sc))).

(** The state after [k] calls in a row. *)
Fixpoint after (k : nat) (s : S) : S :=
  match k with
  | O => s
  | Datatypes.S k' => after k' (snd (func s))
  end.

(** A call in state [s] raises an exception that [except Exception]
    catches. *)
Definition fails_at (s : S) : Prop :=
  exists e, fst (func s) = Raise e /\ is_Exception e = true.

End Wrapper.

(** Three functions to wrap: one that always raises [ValueError], one that
    is interrupted from the keyboard, and one that returns at its third
    call. *)
Definition boom (s : unit) : result Z * unit :=
  (Raise (mkExn ValueError "boom"), s).

Definition interrupted (s : unit) : result Z * unit :=
  (Raise (mkExn (BaseOnly "KeyboardInterrupt") EmptyString), s).

Definition flaky (s : nat) : result Z * nat :=
  (if (s <? 2)%nat then Raise (mkExn ValueError "not yet") else Ok 42,
   Datatypes.S s).

End Retry.

(** * The other helpers of the module *)

(** ** Text

    A Python [str] is modelled by a Rocq string whose characters are the
    code points below 256.  On these, [str.lower] works character by
    character, and [str.isspace], [str.isalnum] are the tables below. *)

Module Str.

Definition code (c : ascii) : N := N_of_ascii c.

Definition between (lo hi n : N) : bool := ((lo <=? n) && (n <=? hi))%N.

(** [c.isspace()], which is also what [str.split()] splits at. *)
Definition isspace (c : ascii) : bool :=
  between 9 13 (code c) || between 28 32 (code c)
  || (code c =? 133)%N || (code c =? 160)%N.

(** [c.isalnum()]. *)
Definition isalnum (c : ascii) : bool :=
  between 48 57 (code c) || between 65 90 (code c)
  || between 97 122 (code c) || (code c =? 170)%N
  || between 178 179 (code c) || (code c =? 181)%N
  || between 185 186 (code c) || between 188 190 (code c)
  || between 192 214 (code c) || between 216 246 (code c)
  || between 248 255 (code c).

Definition lower_char (c : ascii) : ascii :=
  if between 65 90 (code c) || between 192 214 (code c)
     || between 216 222 (code c)
  then ascii_of_N (code c + 32)
  else c.

(** [s.lower()]. *)
Fixpoint lower (s : string) : string :=
  match s with
  | EmptyString => EmptyString
  | String c s' => String (lower_char c) (lower s')
  end.

(** [''.join(char for char in s if p(char))]. *)
Fixpoint keep (p : ascii -> bool) (s : string) : string :=
  match s with
  | EmptyString => EmptyString
  | String c s' => if p c then String c (keep p s') else keep p s'
  end.

(** [s.split()]: the maximal runs of characters that are not whitespace.
    [word] is the run read so far. *)
Fixpoint split_from (s word : string) : list string :=
  match s with
  | EmptyString =>
      match word with
      | EmptyString => []
      | _ => [word]
      end
  | String c s' =>
      if isspace c then
        match word with
        | EmptyString => split_from s' EmptyString
        | _ => word :: split_from s' EmptyString
        end
      else split_from s' (word +:+ String c EmptyString)
  end.

Definition split (s : string) : list string := split_from s EmptyString.

(** [len(s)]. *)
Definition len (s : string) : Z := Z.of_nat (String.length s).

End Str.

(** ** [word_count] *)

(** The body of the [for word in words] loop: [word_dict] after one word. *)
Definition count_word (word_dict : gmap string Z) (word : string)
  : gmap string Z :=
  let word := Str.keep Str.isalnum word in
  match word with
  | EmptyString => word_dict
  | _ => <[word := default 0 (word_dict !! word) + 1]> word_dict
  end.

Definition word_count (text : string) : gmap string Z :=
  foldl count_word ∅ (Str.split (Str.lower text)).

(** ** List comprehensions and the generator *)

Definition squares (n : Z) : list Z :=
  map (fun i => i ^ 2) (py_range 1 (n + 1) 1).

Definition even_numbers (limit : Z) : list Z :=
  map (fun i => i) (py_range 2 (limit + 1) 2).

Definition filter_strings_by_length (strings : list string) (min_length : Z)
  : list string :=
  List.filter (fun s => min_length <=? Str.len s) strings.

(** [number_generator(start, end, step)] run for at most [fuel] turns of
    its [while] loop: the values yielded so far, and whether the generator
    has returned. *)
Fixpoint number_generator (fuel : nat) (current end_ step : Z)
  : list Z * bool :=
  match fuel with
  | O => ([], false)
  | S fuel' =>
      if current <? end_ then
        let '(rest, finished) :=
          number_generator fuel' (current + step) end_ step in
        (current :: rest, finished)
      else ([], true)
  end.

(** ** [write_json_file] *)

(** The file at [filepath] after [content] was written to it.  Writing
    changes what the file holds, not whether it may be read: a path that
    [open(filepath, 'r')] refuses stays refused, and a file that did not
    exist is created readable. *)
Definition set_file (filepath content : string) (w : world) : world :=
  mkWorld (fun p => if String.eqb p filepath then
                      match files w p with
                      | Unreadable e => Unreadable e
                      | _ => Readable content
                      end
                    else files w p)
          (console w).

(** The [except Exception as e] clause of [write_json_file]. *)
Definition write_failed (e : exn) (w : world) : result bool * world :=
  if is_Exception e
  then (Ok false, print ("Error writing JSON file: " +:+ exn_msg e) w)
  else (Raise e, w).

(** [open_w filepath] is the exception that [open(filepath, 'w')] raises,
    if any: it depends on permissions and directories, which the world does
    not record.  Opening with mode ['w'] empties the file before anything is
    written.  [json.dump(data, file, ...)] writes the document in pieces and
    may raise part of the way: the parameter [json_dump] gives the pieces
    written and the exception, if any.  Leaving the [with] block closes the
    file, with what was written in it. *)
Definition write_json_file (open_w : string -> option exn)
  (json_dump : json -> list string * option exn)
  (data : json) (filepath : string) (w : world) : result bool * world :=
  match open_w filepath with
  | Some e => write_failed e w
  | None =>
      let '(pieces, failure) := json_dump data in
      let w' := set_file filepath (String.concat EmptyString pieces) w in
      match failure with
      | None => (Ok true, w')
      | Some e => write_failed e w'
      end
  end.

(** The words that [word_count] counts: the words of the lowered text with
    everything but letters and digits removed, those left empty dropped. *)
Definition counted_words (text : string) : list string :=
  List.filter (fun w => negb (String.eqb w EmptyString))
    (map (Str.keep Str.isalnum) (Str.split (Str.lower text))).

(** How often [w] occurs in a list of words. *)
Definition occurrences (w : string) (ws : list string) : Z :=
  Z.of_nat (length (List.filter (String.eqb w) ws)).

(** A serialiser and a parser that know the document [null] only, to run
    the two file helpers on. *)
Definition dump_null (data : json) : list string * option exn :=
  match data with
  | JNull => (["null"%string], None)
  | _ =>
      ([], Some (mkExn (OtherException "TypeError")
                   "Object is not JSON serializable"))
  end.

Definition load_null (text : string) : result json :=
  if String.eqb text "null" then Ok JNull
  else Raise (mkExn JSONDecodeError "Expecting value").

(** Every path can be opened for writing. *)
Definition open_always (filepath : string) : option exn := None.

(** A world with one file, [old.json], holding [null]. *)
Definition one_file_world : world :=
  mkWorld (fun p => if String.eqb p "old.json" then Readable "null"
                    else Missing) [].

(** The line that [wrapper] prints when call number [i] (from 0) of a run
    that started in state [s] raised and is retried. *)
Definition attempt_line {S A : Type} (func : S -> result A * S) (s : S)
  (i : nat) : string :=
  "Attempt " +:+ str_int (Z.of_nat i + 1) +:+ " failed: " +:+
  match fst (func (Retry.after func i s)) with
  | Raise e => exn_msg e
  | Ok _ => EmptyString
  end.

(** * Properties *)

(** ** Ranges and [fibonacci] *)

Lemma py_range_unit (a b : Z) :
  py_range a b 1 = map (fun k => a + Z.of_nat k) (seq 0 (Z.to_nat (b - a))).
Proof.
  unfold py_range.
  replace ((b - a + 1 - 1) / 1) with (b - a) by (rewrite Z.div_1_r; lia).
  apply map_ext. intros k. lia.
Qed.

Lemma elem_of_py_range_unit (a b x : Z) :
  x ∈ py_range a b 1 <-> a <= x < b.
Proof.
  rewrite py_range_unit, list_elem_of_fmap. split.
  - intros (k & -> & Hk). apply elem_of_seq in Hk. lia.
  - intros Hx. exists (Z.to_nat (x - a)). split; [lia|].
    apply elem_of_seq. lia.
Qed.

Lemma fib_seq_step (k : nat) :
  fib_seq (S (S k)) = fib_seq (S k) + fib_seq k.
Proof. reflexivity. Qed.

Lemma py_getitem_lookup {A} (l : list A) (i : nat) (x : A) :
  l !! i = Some x -> py_getitem l (Z.of_nat i) = Ok x.
Proof.
  intros Hl. pose proof (lookup_lt_Some _ _ _ Hl) as Hlt.
  unfold py_getitem.
  destruct (Z.ltb_spec (Z.of_nat i) 0); [lia|].
  destruct (Z.leb_spec 0 (Z.of_nat i)); [|lia].
  destruct (Z.ltb_spec (Z.of_nat i) (Z.of_nat (length l))); [|lia].
  simpl. rewrite Nat2Z.id, Hl. reflexivity.
Qed.

Lemma fib_prefix_lookup (n i : nat) :
  (i < n)%nat -> map fib_seq (seq 0 n) !! i = Some (fib_seq i).
Proof.
  intros Hi. rewrite list_lookup_fmap, lookup_seq_lt by assumption.
  reflexivity.
Qed.

Lemma fib_loop_prefix (c j : nat) :
  fib_loop (map (fun k => 2 + Z.of_nat k) (seq j c))
           (map fib_seq (seq 0 (2 + j)))
  = Ok (map fib_seq (seq 0 (2 + j + c))).
Proof.
  revert j. induction c as [|c IH]; intros j.
  - simpl seq at 1. simpl map at 1. simpl fib_loop.
    rewrite Nat.add_0_r. reflexivity.
  - change (seq j (S c)) with (j :: seq (S j) c).
    cbn [map fib_loop].
    replace (2 + Z.of_nat j - 1) with (Z.of_nat (S j)) by lia.
    replace (2 + Z.of_nat j - 2) with (Z.of_nat j) by lia.
    rewrite (py_getitem_lookup _ _ (fib_seq (S j)))
      by (apply fib_prefix_lookup; lia).
    cbn [rbind].
    rewrite (py_getitem_lookup _ _ (fib_seq j))
      by (apply fib_prefix_lookup; lia).
    cbn [rbind].
    rewrite <- fib_seq_step.
    replace (map fib_seq (seq 0 (2 + j)) ++ [fib_seq (S (S j))])
      with (map fib_seq (seq 0 (2 + S j))).
    + rewrite IH. replace (2 + S j + c)%nat with (2 + j + S c)%nat by lia.
      reflexivity.
    + change (2 + S j)%nat with (S (2 + j)).
      rewrite seq_S, map_app. reflexivity.
Qed.

(** C2: [fibonacci n] returns the first [n] terms of the Fibonacci sequence
    0, 1, 1, 2, ...: the result has length [n] when [n >= 1], is the empty
    list when [n <= 0], and [fibonacci 5] is [[0; 1; 1; 2; 3]]. *)
Theorem fibonacci_first_terms (n : Z) :
  exists l : list Z,
    fibonacci n = Ok l
    /\ l = map fib_seq (seq 0 (Z.to_nat n))
    /\ (1 <= n -> Z.of_nat (length l) = n)
    /\ (n <= 0 -> l = [])
    /\ fibonacci 5 = Ok [0; 1; 1; 2; 3].
Proof.
  assert (Hrun : fibonacci n = Ok (map fib_seq (seq 0 (Z.to_nat n)))).
  { unfold fibonacci.
    destruct (Z.leb_spec n 0) as [Hn|Hn].
    { replace (Z.to_nat n) with 0%nat by lia. reflexivity. }
    destruct (Z.eqb_spec n 1) as [->|Hn1]; [reflexivity|].
    destruct (Z.eqb_spec n 2) as [->|Hn2]; [reflexivity|].
    rewrite py_range_unit.
    pose proof (fib_loop_prefix (Z.to_nat (n - 2)) 0) as Hloop.
    replace (2 + 0 + Z.to_nat (n - 2))%nat with (Z.to_nat n) in Hloop by lia.
    exact Hloop. }
  exists (map fib_seq (seq 0 (Z.to_nat n))).
  split; [exact Hrun|]. split; [reflexivity|].
  split; [|split].
  - intros Hn. rewrite length_map, length_seq. lia.
  - intros Hn. replace (Z.to_nat n) with 0%nat by lia. reflexivity.
  - reflexivity.
Qed.

(** ** The store and the calculator's log *)

(** ** The store *)

Lemma list_append_same (l : positive) (s : string) (h : heap) :
  list_append l s h !!! l = h !!! l ++ [s].
Proof. unfold list_append. apply lookup_total_insert_eq. Qed.

Lemma list_append_other (l l' : positive) (s : string) (h : heap) :
  l <> l' -> list_append l s h !!! l' = h !!! l'.
Proof. intros Hne. unfold list_append. by apply lookup_total_insert_ne. Qed.

Lemma list_copy_fresh (l : positive) (h : heap) :
  fst (list_copy l h) ∉ dom h.
Proof. unfold list_copy. simpl. apply is_fresh. Qed.

Lemma list_copy_same (l : positive) (h : heap) :
  snd (list_copy l h) !!! fst (list_copy l h) = h !!! l.
Proof. unfold list_copy. simpl. apply lookup_total_insert_eq. Qed.

Lemma list_copy_source (l : positive) (h : heap) :
  snd (list_copy l h) !!! l = h !!! l.
Proof.
  unfold list_copy. simpl.
  destruct (decide (fresh (dom h) = l)) as [->|Hne].
  - apply lookup_total_insert_eq.
  - by apply lookup_total_insert_ne.
Qed.

Lemma mutate_other (l l' : positive) (m : Calculator.mutation) (h : heap) :
  l <> l' -> Calculator.mutate l m h !!! l' = h !!! l'.
Proof.
  intros Hne. destruct m; simpl;
    first [by apply list_append_other | by apply lookup_total_insert_ne].
Qed.

Lemma mutate_all_other (l l' : positive) (ms : list Calculator.mutation)
  (h : heap) :
  l <> l' -> Calculator.mutate_all l ms h !!! l' = h !!! l'.
Proof.
  intros Hne. unfold Calculator.mutate_all.
  revert h. induction ms as [|m ms IH]; intros h; simpl; [done|].
  rewrite IH. by apply mutate_other.
Qed.

Lemma mutate_dom (l : positive) (m : Calculator.mutation) (h : heap) :
  dom h ⊆ dom (Calculator.mutate l m h).
Proof.
  destruct m; simpl; unfold list_append; rewrite dom_insert_L; set_solver.
Qed.

Lemma mutate_all_dom (l : positive) (ms : list Calculator.mutation)
  (h : heap) :
  dom h ⊆ dom (Calculator.mutate_all l ms h).
Proof.
  unfold Calculator.mutate_all.
  revert h. induction ms as [|m ms IH]; intros h; simpl; [done|].
  etrans; [apply (mutate_dom l m)|apply IH].
Qed.

(** ** The calculator's log *)

Import Calculator.

Lemma run_call_history (self : Calculator.t) (c : call) (h : heap) :
  run_call self c h !!! history self
  = h !!! history self ++ option_list (logged c).
Proof.
  destruct c as [a b|a b|a b|a b|]; cbn [run_call logged].
  - unfold add. destruct (PyNum.add a b); simpl.
    + apply list_append_same.
    + by rewrite app_nil_r.
  - unfold subtract. destruct (PyNum.sub a b); simpl.
    + apply list_append_same.
    + by rewrite app_nil_r.
  - unfold multiply. destruct (PyNum.mul a b); simpl.
    + apply list_append_same.
    + by rewrite app_nil_r.
  - unfold divide. destruct (PyNum.eq_zero b); simpl.
    + by rewrite app_nil_r.
    + destruct (PyNum.truediv a b); simpl.
      * apply list_append_same.
      * by rewrite app_nil_r.
  - unfold get_history. rewrite list_copy_source. simpl. by rewrite app_nil_r.
Qed.


(** ** [Calculator.divide] *)



(** ** Results of the arithmetic methods *)



(** ** [Calculator.get_history] *)

(** C10: [get_history] returns a new list object holding the items of the
    history.  Whatever the caller then does to that list, the calculator's
    own history keeps its items, and a second [get_history] returns yet
    another list, equal to what the first one returned. *)
Theorem get_history_returns_copy (self : Calculator.t) (h : heap)
  (ms : list mutation) :
  history self ∈ dom h ->
  let first := get_history self h in
  let h2 := mutate_all (fst first) ms (snd first) in
  let second := get_history self h2 in
  fst first <> history self
  /\ snd first !!! fst first = h !!! history self
  /\ h2 !!! history self = h !!! history self
  /\ snd second !!! fst second = snd first !!! fst first
  /\ fst second <> fst first.
Proof.
  intros Hdom first h2 second.
  assert (Hfresh : fst first <> history self).
  { intros Heq. pose proof (list_copy_fresh (history self) h) as Hf.
    unfold first, get_history in Heq. rewrite Heq in Hf. by apply Hf. }
  assert (Hcopy : snd first !!! fst first = h !!! history self)
    by apply list_copy_same.
  assert (Hkept : h2 !!! history self = h !!! history self).
  { unfold h2. rewrite mutate_all_other by assumption.
    apply list_copy_source. }
  repeat split; try assumption.
  - unfold second, get_history. rewrite list_copy_same.
    by rewrite Hkept, Hcopy.
  - intros Heq. pose proof (list_copy_fresh (history self) h2) as Hf.
    apply Hf. fold (get_history self h2). fold second. rewrite Heq.
    apply (mutate_all_dom (fst first) ms (snd first)).
    unfold first, get_history, list_copy. cbn [fst snd].
    rewrite dom_insert_L. set_solver.
Qed.

Lemma get_history_returns_copy_witness :
  let self := fst fresh_calculator in
  let h := snd (add self (PInt 2) (PInt 3) (snd fresh_calculator)) in
  let ms := [MClear; MAppend "x"%string] in
  let first := get_history self h in
  let h2 := mutate_all (fst first) ms (snd first) in
  let second := get_history self h2 in
  fst first <> history self
  /\ snd first !!! fst first = h !!! history self
  /\ h2 !!! history self = h !!! history self
  /\ snd second !!! fst second = snd first !!! fst first
  /\ fst second <> fst first.
Proof.
  intros self h ms.
  apply (get_history_returns_copy self h ms).
  apply elem_of_dom. exists ["2 + 3 = 5"%string]. vm_compute. reflexivity.
Defined.

(** ** [retry] *)

Section RetryFacts.
Context {S A : Type}.
Variable func : S -> result A * S.

Lemma after_counted (k : nat) (s : S) (n : nat) :
  Retry.after (Retry.counted func) k (s, n)
  = (Retry.after func k s, (n + k)%nat).
Proof.
  revert s n. induction k as [|k IH]; intros s n; simpl.
  - by rewrite Nat.add_0_r.
  - unfold Retry.counted at 2. simpl. destruct (func s) as [r s']. simpl.
    rewrite IH. f_equal. lia.
Qed.

Lemma fails_at_counted (s : S) (n : nat) :
  Retry.fails_at func s ->
  Retry.fails_at (Retry.counted func) (s, n).
Proof.
  intros (e & He & Hc). exists e. unfold Retry.counted. simpl.
  destruct (func s) as [r s']. simpl in *. by split.
Qed.

(** Every remaining attempt fails: the loop ends at the last one, with the
    exception of that call. *)
Lemma wrapper_loop_exhausts (c j : nat) (max_attempts : Z) (s : S)
  (out : list string) :
  max_attempts = Z.of_nat (j + Datatypes.S c) ->
  (forall i, (i <= c)%nat -> Retry.fails_at func (Retry.after func i s)) ->
  exists e out',
    fst (func (Retry.after func c s)) = Raise e
    /\ Retry.wrapper_loop func
         (map (fun k => 0 + Z.of_nat k) (seq j (Datatypes.S c)))
         max_attempts s out
       = (Raise e, Retry.after func (Datatypes.S c) s, out').
Proof.
  revert j s out. induction c as [|c IH]; intros j s out Hmax Hfail.
  - destruct (Hfail 0%nat (le_n _)) as (e & He & Hc). simpl in He.
    exists e, out. split; [exact He|].
    simpl. destruct (func s) as [r s'] eqn:Hf. simpl in He. subst r.
    rewrite Hc.
    destruct (Z.eqb_spec (0 + Z.of_nat j) (max_attempts - 1)); [done|lia].
  - destruct (Hfail 0%nat (Nat.le_0_l _)) as (e & He & Hc). simpl in He.
    change (seq j (Datatypes.S (Datatypes.S c)))
      with (j :: seq (Datatypes.S j) (Datatypes.S c)).
    cbn [map Retry.wrapper_loop].
    destruct (func s) as [r s'] eqn:Hf. simpl in He. subst r.
    rewrite Hc.
    destruct (Z.eqb_spec (0 + Z.of_nat j) (max_attempts - 1)); [lia|].
    edestruct (IH (Datatypes.S j) s') as (e' & out' & He' & Hrun).
    + lia.
    + intros i Hi. specialize (Hfail (Datatypes.S i) ltac:(lia)).
      simpl in Hfail. by rewrite Hf in Hfail.
    + exists e', out'. split.
      * simpl. by rewrite Hf.
      * rewrite Hrun. simpl. by rewrite Hf.
Qed.

(** The first [k] attempts fail and the next one returns. *)
Lemma wrapper_loop_returns (k c j : nat) (max_attempts : Z) (s : S)
  (out : list string) (v : A) :
  (k < c)%nat ->
  Z.of_nat (j + k) < max_attempts ->
  (forall i, (i < k)%nat -> Retry.fails_at func (Retry.after func i s)) ->
  fst (func (Retry.after func k s)) = Ok v ->
  exists out',
    Retry.wrapper_loop func
      (map (fun k => 0 + Z.of_nat k) (seq j c)) max_attempts s out
    = (Ok (Some v), Retry.after func (Datatypes.S k) s, out').
Proof.
  revert c j s out. induction k as [|k IH]; intros c j s out Hk Hj Hfail Hok.
  - destruct c as [|c]; [lia|]. simpl in *.
    destruct (func s) as [r s']. simpl in Hok. subst r. by exists out.
  - destruct c as [|c]; [lia|].
    destruct (Hfail 0%nat (Nat.lt_0_succ _)) as (e & He & Hc). simpl in He.
    cbn [seq map Retry.wrapper_loop].
    destruct (func s) as [r s'] eqn:Hf. simpl in He. subst r.
    rewrite Hc.
    destruct (Z.eqb_spec (0 + Z.of_nat j) (max_attempts - 1)); [lia|].
    edestruct (IH c (Datatypes.S j) s') as (out' & Hrun).
    + lia.
    + lia.
    + intros i Hi. specialize (Hfail (Datatypes.S i) ltac:(lia)).
      simpl in Hfail. by rewrite Hf in Hfail.
    + simpl in Hok. by rewrite Hf in Hok.
    + exists out'. rewrite Hrun. simpl. by rewrite Hf.
Qed.

End RetryFacts.

(** C5 counterexample: with [max_attempts = 0] the wrapper of a function
    that always raises calls it no time, raises nothing and returns [None];
    and a function that raises [KeyboardInterrupt], which is not an
    [Exception], is called once, not three times, when [max_attempts = 3]. *)
Lemma retry_zero_attempts_returns_none :
  Retry.retry (Retry.counted Retry.boom) 0 (tt, 0%nat) []
  = (Ok None, (tt, 0%nat), [])
  /\ ~ (exists e,
          fst (fst (Retry.retry (Retry.counted Retry.boom) 0 (tt, 0%nat) []))
          = Raise e)
  /\ Retry.retry (Retry.counted Retry.interrupted) 3 (tt, 0%nat) []
     = (Raise (mkExn (BaseOnly "KeyboardInterrupt") EmptyString), (tt, 1%nat), []).
Proof.
  split; [reflexivity|]. split; [|reflexivity].
  intros (e & He). vm_compute in He. discriminate.
Qed.

(** C5: for [max_attempts >= 1], the wrapper of a function whose every call
    raises an exception that [except Exception] catches calls it exactly
    [max_attempts] times and then raises the exception of the last call;
    and if the first [k] calls raise such exceptions and call [k + 1], with
    [k < max_attempts], returns [v], the wrapper returns [v] after exactly
    [k + 1] calls. *)
Theorem retry_reraises_after_exhausting {S A : Type}
  (func : S -> result A * S) (max_attempts : Z) (s : S) (calls : nat)
  (out : list string) :
  1 <= max_attempts ->
  let n := Z.to_nat max_attempts in
  let run := Retry.retry (Retry.counted func) max_attempts (s, calls) out in
  ((forall s', Retry.fails_at func s') ->
   exists e,
     fst (func (Retry.after func (n - 1) s)) = Raise e
     /\ fst (fst run) = Raise e
     /\ snd (fst run) = (Retry.after func n s, (calls + n)%nat))
  /\ (forall (k : nat) (v : A),
        (k < n)%nat ->
        (forall i, (i < k)%nat ->
                   Retry.fails_at func (Retry.after func i s)) ->
        fst (func (Retry.after func k s)) = Ok v ->
        fst (fst run) = Ok (Some v)
        /\ snd (fst run)
           = (Retry.after func (Datatypes.S k) s,
              (calls + Datatypes.S k)%nat)).
Proof.
  intros Hmax n run. unfold run, Retry.retry. rewrite py_range_unit.
  replace (max_attempts - 0) with max_attempts by lia. fold n.
  split.
  - intros Hfail.
    destruct n as [|c] eqn:Hn; [lia|].
    destruct (wrapper_loop_exhausts (Retry.counted func) c 0 max_attempts
                (s, calls) out) as (e & out' & He & Hrun).
    + lia.
    + intros i _. rewrite after_counted.
      apply fails_at_counted, Hfail.
    + exists e. rewrite Hrun.
      replace (Datatypes.S c - 1)%nat with c by lia.
      cbn [fst snd].
      rewrite after_counted in He. unfold Retry.counted in He. simpl in He.
      destruct (func (Retry.after func c s)) as [r s'] eqn:Hf.
      simpl in He. subst r. split; [reflexivity|]. split; [reflexivity|].
      apply (after_counted func (Datatypes.S c) s calls).
  - intros k v Hk Hfail Hok.
    destruct (wrapper_loop_returns (Retry.counted func) k n 0 max_attempts
                (s, calls) out v) as (out' & Hrun).
    + exact Hk.
    + lia.
    + intros i Hi. rewrite after_counted. apply fails_at_counted, Hfail, Hi.
    + rewrite after_counted. unfold Retry.counted. simpl.
      destruct (func (Retry.after func k s)) as [r s']. exact Hok.
    + rewrite Hrun. cbn [fst snd]. split; [reflexivity|].
      apply (after_counted func (Datatypes.S k) s calls).
Qed.

Lemma retry_reraises_after_exhausting_witness :
  (exists e,
     fst (fst (Retry.retry (Retry.counted Retry.boom) 3 (tt, 0%nat) []))
     = Raise e
     /\ snd (fst (Retry.retry (Retry.counted Retry.boom) 3 (tt, 0%nat) []))
        = (tt, 3%nat))
  /\ fst (fst (Retry.retry (Retry.counted Retry.flaky) 3 (0%nat, 0%nat) []))
     = Ok (Some 42).
Proof.
  split.
  - destruct (retry_reraises_after_exhausting Retry.boom 3 tt 0%nat []
                ltac:(lia)) as [Hall _].
    destruct Hall as (e & _ & He & Hs).
    + intros []. exists (mkExn ValueError "boom"). by split.
    + exists e. split; [exact He|exact Hs].
  - destruct (retry_reraises_after_exhausting Retry.flaky 3 0%nat 0%nat []
                ltac:(lia)) as [_ Hsome].
    apply (Hsome 2%nat 42).
    + vm_compute. lia.
    + intros i Hi. exists (mkExn ValueError "not yet").
      destruct i as [|[|i]]; [by split|by split|lia].
    + reflexivity.
Defined.

(** ** [read_json_file] *)

(** C6: when the file is missing, [read_json_file] prints
    ["File <path> not found"] and returns the empty mapping; when the file
    is there and [json.load] raises [JSONDecodeError], it prints
    ["Error parsing JSON: <message>"] and returns the empty mapping; when
    the file is there and parses, it returns the parsed value and prints
    nothing. *)
Theorem read_json_file_catches (json_load : string -> result json)
  (filepath : string) (w : world) :
  (files w filepath = Missing ->
   read_json_file json_load filepath w
   = (Ok (JObject []),
      mkWorld (files w)
        (console w ++ ["File " +:+ filepath +:+ " not found"])))
  /\ (forall content e,
        files w filepath = Readable content ->
        json_load content = Raise e ->
        exn_cls e = JSONDecodeError ->
        read_json_file json_load filepath w
        = (Ok (JObject []),
           mkWorld (files w)
             (console w ++ ["Error parsing JSON: " +:+ exn_msg e])))
  /\ (forall content v,
        files w filepath = Readable content ->
        json_load content = Ok v ->
        read_json_file json_load filepath w = (Ok v, w)).
Proof.
  unfold read_json_file, open_and_load, print. repeat split.
  - intros Hf. by rewrite Hf.
  - intros content e Hf He Hc. by rewrite Hf, He, Hc.
  - intros content v Hf Hv. by rewrite Hf, Hv.
Qed.

(** ** Doubles

    Facts about the binary64 operations that the helpers reach: converting
    an int, the square root, dividing by [1024.0] and comparing with it. *)

Module FloatFacts.

Lemma digits2_size (p : positive) : digits2_pos p = Pos.size p.
Proof. induction p; simpl; congruence. Qed.

Lemma digits2_bounds (p : positive) :
  2 ^ (Zpos (digits2_pos p) - 1) <= Zpos p < 2 ^ Zpos (digits2_pos p).
Proof.
  rewrite digits2_size. split.
  - pose proof (Pos.size_le p) as Hle.
    assert (H2 : 2 ^ Zpos (Pos.size p) <= 2 * Zpos p).
    { rewrite <- Pos2Z.inj_pow. apply Pos2Z.pos_le_pos in Hle. exact Hle. }
    replace (Zpos (Pos.size p)) with (Z.succ (Zpos (Pos.size p) - 1)) in H2
      by lia.
    rewrite Z.pow_succ_r in H2 by lia. lia.
  - pose proof (Pos.size_gt p) as Hgt.
    rewrite <- Pos2Z.inj_pow. apply Pos2Z.pos_lt_pos. exact Hgt.
Qed.

Lemma digits2_unique (p : positive) (d : Z) :
  2 ^ (d - 1) <= Zpos p < 2 ^ d -> Zpos (digits2_pos p) = d.
Proof.
  intros [Hlo Hhi]. pose proof (digits2_bounds p) as [Hlo' Hhi'].
  assert (Hd : 0 < d).
  { destruct (Z.ltb_spec 0 d); [assumption|].
    rewrite (Z.pow_neg_r 2 (d - 1)) in Hlo by lia.
    destruct (Z.eqb_spec d 0) as [->|]; [simpl in Hhi; lia|].
    rewrite (Z.pow_neg_r 2 d) in Hhi by lia. lia. }
  destruct (Z.lt_trichotomy (Zpos (digits2_pos p)) d) as [Hlt|[Heq|Hgt]].
  - assert (2 ^ Zpos (digits2_pos p) <= 2 ^ (d - 1))
      by (apply Z.pow_le_mono_r; lia). lia.
  - exact Heq.
  - assert (2 ^ d <= 2 ^ (Zpos (digits2_pos p) - 1))
      by (apply Z.pow_le_mono_r; lia). lia.
Qed.

Lemma iter_xO_pow (m k : positive) :
  Zpos (Pos.iter xO m k) = Zpos m * 2 ^ Zpos k.
Proof.
  induction k as [|k IH] using Pos.peano_ind.
  - simpl. lia.
  - rewrite Pos.iter_succ, Pos2Z.inj_xO, IH, Pos2Z.inj_succ.
    rewrite Z.pow_succ_r by lia. lia.
Qed.

Lemma fexp_normal (x : Z) :
  -1021 <= x -> fexp 53 1024 x = x - 53.
Proof. intros Hx. unfold fexp, emin. lia. Qed.

Lemma loc_of_shr_record_of_loc (m : Z) (l : location) :
  loc_of_shr_record (shr_record_of_loc m l) = l
  /\ shr_m (shr_record_of_loc m l) = m.
Proof. destruct l as [|[| |]]; split; reflexivity. Qed.

Lemma round_nearest_even_cases (m : Z) (l : location) :
  round_nearest_even m l = m \/ round_nearest_even m l = m + 1.
Proof.
  destruct l as [|[| |]]; simpl; auto. destruct (Z.even m); auto.
Qed.

(** Rounding a 53-bit mantissa at its own exponent: no shift happens, the
    location decides between the mantissa and its successor. *)
Lemma binary_round_aux_53 (s : bool) (q : positive) (e : Z) (l : location) :
  Zpos (digits2_pos q) = 53 ->
  -1074 <= e <= 970 ->
  binary_round_aux 53 1024 s (Zpos q) e l
  = if round_nearest_even (Zpos q) l =? 2 ^ 53
    then S754_finite s 4503599627370496 (e + 1)
    else S754_finite s (Z.to_pos (round_nearest_even (Zpos q) l)) e.
Proof.
  intros Hd He.
  pose proof (digits2_bounds q) as Hq. rewrite Hd in Hq.
  unfold binary_round_aux, shr_fexp.
  cbn [Zdigits2]. rewrite Hd, fexp_normal by lia.
  replace (53 + e - 53 - e) with 0 by lia. cbn [shr].
  destruct (loc_of_shr_record_of_loc (Zpos q) l) as [-> ->].
  destruct (round_nearest_even_cases (Zpos q) l) as [HM|HM]; rewrite HM.
  - destruct (Z.eqb_spec (Zpos q) (2 ^ 53)) as [Heq|_]; [lia|].
    cbn [Zdigits2]. rewrite Hd, fexp_normal by lia.
    replace (53 + e - 53 - e) with 0 by lia. cbn [shr shr_m shr_record_of_loc].
    destruct (Z.leb_spec e (1024 - 53)); [|lia]. reflexivity.
  - destruct (Z.eqb_spec (Zpos q + 1) (2 ^ 53)) as [Heq|Hne].
    + assert (Hq' : q = 9007199254740991%positive) by lia. subst q.
      cbn [Z.add Pos.add Pos.succ Zdigits2 Pos.add_carry digits2_pos].
      replace (Zdigits2 (Zpos 9007199254740991 + 1)) with 54
        by (vm_compute; reflexivity).
      rewrite fexp_normal by lia.
      replace (54 + e - 53 - e) with 1 by lia.
      replace (Zpos 9007199254740991 + 1) with (Zpos 9007199254740992)
        by reflexivity.
      cbn.
      destruct (Z.leb_spec (e + 1) (1024 - 53)); [|lia]. reflexivity.
    + assert (Hd' : Zdigits2 (Zpos q + 1) = 53).
      { replace (Zpos q + 1) with (Zpos (q + 1)) by lia.
        cbn [Zdigits2]. apply digits2_unique. lia. }
      rewrite Hd', fexp_normal by lia.
      replace (53 + e - 53 - e) with 0 by lia.
      cbn [shr shr_m shr_record_of_loc].
      replace (Zpos q + 1) with (Zpos (q + 1)) by lia.
      destruct (Z.leb_spec e (1024 - 53)); [|lia]. reflexivity.
Qed.

Lemma pow2_split (a b : Z) :
  0 <= a -> 0 <= b -> 2 ^ (a + b) = 2 ^ a * 2 ^ b.
Proof. intros. apply Z.pow_add_r; assumption. Qed.

(** [float(n)] is exact below 2^53: the mantissa is [n] shifted to 53 bits. *)
Lemma of_int_small (n : Z) :
  1 <= n < 2 ^ 53 ->
  exists (m : positive) (e : Z),
    Float.of_int n = Ok (S754_finite false m e)
    /\ Zpos (digits2_pos m) = 53
    /\ e = Z.log2 n - 52
    /\ Zpos m = n * 2 ^ (- e).
Proof.
  intros Hn. destruct n as [|p|p]; try lia.
  pose proof (digits2_bounds p) as Hp.
  set (d := Zpos (digits2_pos p)) in *.
  assert (Hd : 1 <= d <= 53).
  { split; [unfold d; lia|].
    destruct (Z.leb_spec d 53); [assumption|].
    assert (2 ^ 53 <= 2 ^ (d - 1)) by (apply Z.pow_le_mono_r; lia). lia. }
  assert (Hlog : Z.log2 (Zpos p) = d - 1).
  { apply Z.log2_unique; [lia|].
    replace (Z.succ (d - 1)) with d by lia. exact Hp. }
  unfold Float.of_int, Float.prec, Float.emax.
  cbn [binary_normalize]. unfold binary_round, shl_align.
  fold d. rewrite Z.add_0_r, fexp_normal by lia.
  destruct (d - 53 - 0) as [|k|k] eqn:Hk; try lia.
  - rewrite binary_round_aux_53 by (fold d; lia).
    cbn [round_nearest_even].
    destruct (Z.eqb_spec (Zpos p) (2 ^ 53)); [lia|].
    exists p, 0. cbn [Z.to_pos]. repeat split; lia.
  - assert (Hiter : Zpos (Pos.iter xO p k) = Zpos p * 2 ^ (53 - d)).
    { rewrite iter_xO_pow. f_equal. f_equal. lia. }
    assert (Hpow : 2 ^ (d - 1) * 2 ^ (53 - d) = 2 ^ 52).
    { rewrite <- pow2_split by lia. f_equal. lia. }
    assert (Hpow' : 2 ^ d * 2 ^ (53 - d) = 2 ^ 53).
    { rewrite <- pow2_split by lia. f_equal. lia. }
    assert (Hpos : 0 < 2 ^ (53 - d)) by (apply Z.pow_pos_nonneg; lia).
    assert (Hdig : Zpos (digits2_pos (Pos.iter xO p k)) = 53).
    { apply digits2_unique. rewrite Hiter. change (53 - 1) with 52. split.
      - rewrite <- Hpow. apply Z.mul_le_mono_nonneg_r; lia.
      - rewrite <- Hpow'. apply Z.mul_lt_mono_pos_r; lia. }
    rewrite binary_round_aux_53 by lia.
    cbn [round_nearest_even].
    destruct (Z.eqb_spec (Zpos (Pos.iter xO p k)) (2 ^ 53)) as [Heq|_].
    { pose proof (digits2_bounds (Pos.iter xO p k)) as Hb.
      rewrite Hdig in Hb. lia. }
    exists (Pos.iter xO p k), (d - 53). cbn [Z.to_pos].
    repeat split; try lia.
    rewrite Hiter. f_equal. f_equal. lia.
Qed.

Lemma sqrt_scaled_lower (n P : Z) :
  0 <= n -> 0 < P -> Z.sqrt n * P <= Z.sqrt (n * (P * P)).
Proof.
  intros Hn HP. pose proof (Z.sqrt_spec n Hn) as [Hlo _].
  pose proof (Z.sqrt_nonneg n) as Hs.
  apply Z.sqrt_le_square; nia.
Qed.

Lemma sqrt_scaled_upper (n P : Z) :
  0 <= n -> 0 < P -> Z.sqrt (n * (P * P)) < (Z.sqrt n + 1) * P.
Proof.
  intros Hn HP. pose proof (Z.sqrt_spec n Hn) as [_ Hhi].
  pose proof (Z.sqrt_nonneg n) as Hs.
  apply Z.sqrt_lt_square; nia.
Qed.

(** [int(float ** 0.5)] on the double of an integer below 2^53 is the
    integer square root, or one more. *)
Lemma sqrt_float_bounds (n : Z) (m : positive) (e : Z) :
  1 <= n ->
  Zpos (digits2_pos m) = 53 ->
  -52 <= e <= 0 ->
  Zpos m = n * 2 ^ (- e) ->
  exists r : Z,
    Float.to_int (Float.pow_half (S754_finite false m e)) = Ok r
    /\ Z.sqrt n <= r <= Z.sqrt n + 1.
Proof.
  intros Hn Hd He Hm.
  pose proof (digits2_bounds m) as Hmb. rewrite Hd in Hmb.
  change (53 - 1) with 52 in Hmb.
  unfold Float.pow_half, Float.prec, Float.emax, SFsqrt, SFsqrt_core_binary.
  cbn [Zdigits2]. rewrite Hd, !Z.div2_div.
  set (h := (53 + e + 1) / 2).
  assert (Hh : 2 * h <= 54 + e <= 2 * h + 1)
    by (unfold h; Z.div_mod_to_equations; lia).
  assert (He2 : -26 <= e / 2) by (Z.div_mod_to_equations; lia).
  rewrite fexp_normal by lia.
  replace (Z.min (h - 53) (e / 2)) with (h - 53) by lia.
  set (K := 53 - h).
  assert (HK : 26 <= K <= 52) by (unfold K; lia).
  set (P := 2 ^ K).
  assert (HP : 0 < P) by (apply Z.pow_pos_nonneg; lia).
  assert (Hshift : Zpos m * 2 ^ (e - 2 * (h - 53)) = n * (P * P)).
  { rewrite Hm, <- Z.mul_assoc. f_equal. unfold P.
    rewrite <- (pow2_split (- e) (e - 2 * (h - 53))) by lia.
    rewrite <- (pow2_split K K) by lia. f_equal. unfold K. lia. }
  assert (Hm' : match e - 2 * (h - 53) with
                | 0 => Zpos m
                | Zpos _ => Z.shiftl (Zpos m) (e - 2 * (h - 53))
                | Zneg _ => 0
                end = n * (P * P)).
  { destruct (e - 2 * (h - 53)) as [|sp|sp] eqn:Hs; try lia.
    rewrite Z.shiftl_mul_pow2 by lia. exact Hshift. }
  rewrite Hm'. clear Hm'.
  assert (HPP : P * P = 2 ^ (2 * K)).
  { unfold P. rewrite <- pow2_split by lia. f_equal. lia. }
  pose proof (Z.sqrtrem_spec (n * (P * P)) ltac:(nia)) as Hspec.
  pose proof (Z.sqrtrem_sqrt (n * (P * P))) as Hsq.
  destruct (Z.sqrtrem (n * (P * P))) as [q rem]. simpl in Hsq. subst q.
  set (q := Z.sqrt (n * (P * P))) in *.
  pose proof (sqrt_scaled_lower n P ltac:(lia) HP) as Hlo. fold q in Hlo.
  pose proof (sqrt_scaled_upper n P ltac:(lia) HP) as Hhi. fold q in Hhi.
  assert (Hq52 : 2 ^ 52 <= q).
  { unfold q. apply Z.sqrt_le_square; [nia|lia|].
    rewrite <- Hshift.
    assert (2 ^ 52 <= 2 ^ (e - 2 * (h - 53)))
      by (apply Z.pow_le_mono_r; lia).
    change (2 ^ 52 * 2 ^ 52) with (2 ^ 52 * 2 ^ 52). nia. }
  assert (Hq53 : q < 2 ^ 53).
  { unfold q. apply Z.sqrt_lt_square; [nia|lia|].
    rewrite <- Hshift.
    assert (2 ^ (e - 2 * (h - 53)) <= 2 ^ 53)
      by (apply Z.pow_le_mono_r; lia).
    assert (0 < 2 ^ (e - 2 * (h - 53))) by (apply Z.pow_pos_nonneg; lia).
    nia. }
  destruct q as [|qp|qp] eqn:Hqp; try lia.
  assert (Hdq : Zpos (digits2_pos qp) = 53)
    by (apply digits2_unique; change (53 - 1) with 52; lia).
  set (l := if rem =? 0 then loc_Exact
            else loc_Inexact (if rem <=? Zpos qp then Lt else Gt)).
  rewrite binary_round_aux_53 by lia.
  assert (Hdiv_lo : Z.sqrt n <= Zpos qp / P)
    by (apply Z.div_le_lower_bound; lia).
  assert (Hdiv_hi : (Zpos qp + 1) / P <= Z.sqrt n + 1)
    by (apply Z.div_le_upper_bound; lia).
  assert (Hmono : Zpos qp / P <= (Zpos qp + 1) / P)
    by (apply Z.div_le_mono; lia).
  destruct (round_nearest_even_cases (Zpos qp) l) as [HM|HM]; rewrite HM.
  - destruct (Z.eqb_spec (Zpos qp) (2 ^ 53)); [lia|].
    cbn [Float.to_int Z.to_pos].
    destruct (Z.leb_spec 0 (h - 53)); [lia|].
    replace (- (h - 53)) with K by (unfold K; lia). fold P.
    eexists. split; [reflexivity|]. lia.
  - destruct (Z.eqb_spec (Zpos qp + 1) (2 ^ 53)) as [Heq|Hne].
    + cbn [Float.to_int].
      destruct (Z.leb_spec 0 (h - 53 + 1)); [lia|].
      eexists. split; [reflexivity|].
      assert (Hsame : Zpos 4503599627370496 / 2 ^ (- (h - 53 + 1))
                      = (Zpos qp + 1) / P).
      { rewrite Heq.
        assert (HP2 : P = 2 ^ (- (h - 53 + 1)) * 2).
        { unfold P. replace K with (- (h - 53 + 1) + 1) by (unfold K; lia).
          rewrite pow2_split by lia. reflexivity. }
        rewrite HP2.
        replace (2 ^ 53) with (4503599627370496 * 2) by reflexivity.
        rewrite Z.div_mul_cancel_r; [reflexivity| |lia].
        apply Z.pow_nonzero; lia. }
      rewrite Hsame. lia.
    + replace (Zpos qp + 1) with (Zpos (qp + 1)) in * by lia.
      cbn [Float.to_int Z.to_pos].
      destruct (Z.leb_spec 0 (h - 53)); [lia|].
      replace (- (h - 53)) with K by (unfold K; lia). fold P.
      eexists. split; [reflexivity|]. lia.
Qed.

(** Dividing a normal double by [1024.0] lowers its exponent by ten. *)
Lemma div_f1024 (m : positive) (e : Z) :
  Zpos (digits2_pos m) = 53 ->
  -1063 <= e <= 971 ->
  Float.div (S754_finite false m e) Float.f1024
  = S754_finite false m (e - 10).
Proof.
  intros Hd He.
  unfold Float.div, Float.f1024, Float.prec, Float.emax, SFdiv,
    SFdiv_core_binary.
  cbn [Zdigits2]. rewrite Hd.
  change (Zpos (digits2_pos 4503599627370496)) with 53.
  replace (53 + e - (53 + -42)) with (e + 42) by lia.
  rewrite fexp_normal by lia.
  replace (Z.min (e + 42 - 53) (e - -42)) with (e - 11) by lia.
  replace (e - -42 - (e - 11)) with 53 by lia.
  rewrite Z.shiftl_mul_pow2 by lia.
  assert (Hdiv : Z.div_eucl (Zpos m * 2 ^ 53) (Zpos 4503599627370496)
                 = (Zpos (m~0), 0)).
  { pose proof (Z.div_eucl_eq (Zpos m * 2 ^ 53) (Zpos 4503599627370496)
                  ltac:(lia)) as Heq.
    pose proof (Z.mod_pos_bound (Zpos m * 2 ^ 53) (Zpos 4503599627370496)
                  ltac:(lia)) as Hmod.
    unfold Z.modulo in Hmod.
    destruct (Z.div_eucl (Zpos m * 2 ^ 53) (Zpos 4503599627370496))
      as [q r].
    change (2 ^ 53) with (2 * 4503599627370496) in Heq.
    f_equal; lia. }
  rewrite Hdiv. cbn [xorb].
  change (new_location (Zpos 4503599627370496) 0) with loc_Exact.
  unfold binary_round_aux, shr_fexp.
  cbn [Zdigits2].
  change (digits2_pos m~0) with (Pos.succ (digits2_pos m)).
  rewrite Pos2Z.inj_succ, Hd.
  change (Z.succ 53) with 54.
  rewrite fexp_normal by lia.
  replace (54 + (e - 11) - 53 - (e - 11)) with 1 by lia.
  cbn [shr shr_record_of_loc SpecFloat.iter_pos shr_1 loc_of_shr_record
       round_nearest_even shr_m Zdigits2 orb].
  rewrite Hd, fexp_normal by lia.
  replace (53 + (e - 11 + 1) - 53 - (e - 11 + 1)) with 0 by lia.
  cbn [shr shr_record_of_loc shr_m].
  destruct (Z.leb_spec (e - 11 + 1) (1024 - 53)); [|lia].
  f_equal. lia.
Qed.

(** A normal double compared with [1024.0]: only the exponent matters. *)
Lemma ltb_f1024 (m : positive) (e : Z) :
  Zpos (digits2_pos m) = 53 ->
  SFltb (S754_finite false m e) Float.f1024 = (e <? -42).
Proof.
  intros Hd. pose proof (digits2_bounds m) as Hm. rewrite Hd in Hm.
  change (53 - 1) with 52 in Hm.
  unfold SFltb, SFcompare, Float.f1024.
  destruct (Z.compare_spec e (-42)) as [->|Hlt|Hgt].
  - rewrite Pos.compare_cont_spec. cbn [Pos.switch_Eq].
    destruct (Pos.compare_spec m 4503599627370496) as [_|Hlt|_];
      try reflexivity.
    exfalso. apply Pos2Z.pos_lt_pos in Hlt. lia.
  - destruct (Z.ltb_spec e (-42)); [reflexivity|lia].
  - destruct (Z.ltb_spec e (-42)); [lia|reflexivity].
Qed.

Lemma iter_pos_nat {A} (f : A -> A) (p : positive) (x : A) :
  SpecFloat.iter_pos f p x = Nat.iter (Pos.to_nat p) f x.
Proof.
  revert x. induction p as [p IH|p IH|]; intros x; cbn [SpecFloat.iter_pos].
  - rewrite !IH, Pos2Nat.inj_xI, <- Nat.iter_add, <- Nat.iter_succ_r.
    f_equal. lia.
  - rewrite !IH, Pos2Nat.inj_xO, <- Nat.iter_add. f_equal. lia.
  - reflexivity.
Qed.

Lemma shr_1_spec (r : shr_record) :
  0 <= shr_m r ->
  shr_m (shr_1 r) = shr_m r / 2 /\ shr_r (shr_1 r) = Z.odd (shr_m r).
Proof.
  destruct r as [m r s]. cbn [shr_m]. intros Hm.
  rewrite <- Z.div2_div.
  destruct m as [|[p|p|]|p]; try lia; split; reflexivity.
Qed.

Lemma shr_iter_spec (k : nat) (m : Z) :
  0 <= m ->
  shr_m (Nat.iter (S k) shr_1 (Build_shr_record m false false))
  = m / 2 ^ Z.of_nat (S k)
  /\ shr_r (Nat.iter (S k) shr_1 (Build_shr_record m false false))
     = Z.testbit m (Z.of_nat k).
Proof.
  intros Hm. induction k as [|k IH].
  - change (Nat.iter 1 shr_1 (Build_shr_record m false false))
      with (shr_1 (Build_shr_record m false false)).
    destruct (shr_1_spec (Build_shr_record m false false) Hm)
      as [-> ->]. cbn [shr_m]. split; [reflexivity|].
    symmetry. apply Z.bit0_odd.
  - destruct IH as [IHm IHr].
    set (r := Nat.iter (S k) shr_1 (Build_shr_record m false false)) in *.
    change (Nat.iter (S (S k)) shr_1 (Build_shr_record m false false))
      with (shr_1 r).
    assert (Hr : 0 <= shr_m r).
    { rewrite IHm. apply Z.div_pos; [lia|]. apply Z.pow_pos_nonneg; lia. }
    destruct (shr_1_spec r Hr) as [-> ->]. rewrite IHm. split.
    + rewrite Z.div_div by (try apply Z.pow_pos_nonneg; lia).
      f_equal. rewrite (Nat2Z.inj_succ (S k)), Z.pow_succ_r by lia. lia.
    + rewrite Z.testbit_odd, Z.shiftr_div_pow2 by lia. reflexivity.
Qed.

(** [float(n)] at and above 2^53: the low bits are shifted out and the
    53-bit quotient is rounded by the bits that fell off. *)
Lemma normalize_big (n : Z) :
  2 ^ 53 <= n ->
  exists (r : shr_record),
    shr_m r = n / 2 ^ (Z.log2 n - 52)
    /\ shr_r r = Z.testbit n (Z.log2 n - 53)
    /\ binary_normalize 53 1024 n 0 false
       = if round_nearest_even (shr_m r) (loc_of_shr_record r) =? 2 ^ 53
         then if Z.log2 n - 52 + 1 <=? 971
              then S754_finite false 4503599627370496 (Z.log2 n - 52 + 1)
              else S754_infinity false
         else if Z.log2 n - 52 <=? 971
              then S754_finite false
                     (Z.to_pos (round_nearest_even (shr_m r)
                                  (loc_of_shr_record r)))
                     (Z.log2 n - 52)
              else S754_infinity false.
Proof.
  intros Hn. destruct n as [|pn|pn]; try lia.
  pose proof (digits2_bounds pn) as Hp.
  set (d := Zpos (digits2_pos pn)) in *.
  assert (Hd : 54 <= d).
  { destruct (Z.leb_spec 54 d); [assumption|].
    assert (2 ^ d <= 2 ^ 53) by (apply Z.pow_le_mono_r; lia). lia. }
  assert (Hlog : Z.log2 (Zpos pn) = d - 1).
  { apply Z.log2_unique; [lia|].
    replace (Z.succ (d - 1)) with d by lia. exact Hp. }
  rewrite Hlog.
  replace (d - 1 - 52) with (d - 53) by lia.
  replace (d - 1 - 53) with (d - 54) by lia.
  destruct (d - 53) as [|pp|pp] eqn:Hpp; try lia.
  set (r := SpecFloat.iter_pos shr_1 pp
              (Build_shr_record (Zpos pn) false false)).
  destruct (shr_iter_spec (Pos.to_nat pp - 1) (Zpos pn) ltac:(lia))
    as [Hm Hr].
  replace (S (Pos.to_nat pp - 1)) with (Pos.to_nat pp) in Hm, Hr by lia.
  rewrite <- iter_pos_nat in Hm, Hr. fold r in Hm, Hr.
  rewrite positive_nat_Z in Hm.
  replace (Z.of_nat (Pos.to_nat pp - 1)) with (d - 54) in Hr by lia.
  exists r. split; [exact Hm|]. split; [exact Hr|].
  assert (Hpow : 2 ^ (d - 1) = 2 ^ 52 * 2 ^ Zpos pp).
  { rewrite <- pow2_split by lia. f_equal. lia. }
  assert (Hpow' : 2 ^ d = 2 ^ 53 * 2 ^ Zpos pp).
  { rewrite <- pow2_split by lia. f_equal. lia. }
  assert (Hpos : 0 < 2 ^ Zpos pp) by (apply Z.pow_pos_nonneg; lia).
  assert (HM0 : 2 ^ 52 <= shr_m r < 2 ^ 53).
  { rewrite Hm. split.
    - apply Z.div_le_lower_bound; lia.
    - apply Z.div_lt_upper_bound; lia. }
  cbn [binary_normalize]. unfold binary_round, shl_align.
  fold d. rewrite Z.add_0_r, fexp_normal by lia.
  replace (d - 53 - 0) with (Zpos pp) by lia.
  unfold binary_round_aux, shr_fexp.
  cbn [Zdigits2]. fold d. rewrite Z.add_0_r, fexp_normal by lia.
  replace (d - 53 - 0) with (Zpos pp) by lia.
  cbn [shr shr_record_of_loc]. fold r.
  set (M := round_nearest_even (shr_m r) (loc_of_shr_record r)).
  assert (HM : M = shr_m r \/ M = shr_m r + 1)
    by apply round_nearest_even_cases.
  rewrite Z.add_0_l.
  destruct (Z.eqb_spec M (2 ^ 53)) as [Heq|Hne].
  - rewrite Heq. change (Zdigits2 (2 ^ 53)) with 54.
    rewrite fexp_normal by lia.
    replace (54 + Zpos pp - 53 - Zpos pp) with 1 by lia.
    cbn. reflexivity.
  - assert (HMpos : exists mp, M = Zpos mp /\ Zpos (digits2_pos mp) = 53).
    { destruct M as [|mp|mp]; try lia. exists mp. split; [reflexivity|].
      apply digits2_unique. change (53 - 1) with 52. lia. }
    destruct HMpos as (mp & -> & Hdm).
    cbn [Zdigits2]. rewrite Hdm, fexp_normal by lia.
    replace (53 + Zpos pp - 53 - Zpos pp) with 0 by lia.
    cbn [shr shr_m shr_record_of_loc Z.to_pos]. reflexivity.
Qed.

Lemma of_int_big (n : Z) :
  2 ^ 53 <= n < 2 ^ 1024 - 2 ^ 970 ->
  exists (m : positive) (e : Z),
    Float.of_int n = Ok (S754_finite false m e)
    /\ Zpos (digits2_pos m) = 53
    /\ 1 <= e <= 971.
Proof.
  intros Hn.
  destruct (normalize_big n ltac:(lia)) as (r & Hm & Hr & Hrun).
  unfold Float.of_int, Float.prec, Float.emax. rewrite Hrun. clear Hrun.
  assert (Hlog : 53 <= Z.log2 n < 1024).
  { split; [apply Z.log2_le_pow2; lia|apply Z.log2_lt_pow2; lia]. }
  pose proof (Z.log2_spec n ltac:(lia)) as Hspec.
  set (p := Z.log2 n - 52) in *.
  assert (Hpow : 2 ^ Z.log2 n = 2 ^ 52 * 2 ^ p).
  { rewrite <- pow2_split by lia. f_equal. lia. }
  assert (Hpow' : 2 ^ Z.succ (Z.log2 n) = 2 ^ 53 * 2 ^ p).
  { rewrite <- pow2_split by lia. f_equal. lia. }
  assert (Hpos : 0 < 2 ^ p) by (apply Z.pow_pos_nonneg; lia).
  assert (HM0 : 2 ^ 52 <= shr_m r < 2 ^ 53).
  { rewrite Hm. split.
    - apply Z.div_le_lower_bound; lia.
    - apply Z.div_lt_upper_bound; lia. }
  set (M := round_nearest_even (shr_m r) (loc_of_shr_record r)).
  assert (HM : M = shr_m r \/ M = shr_m r + 1)
    by apply round_nearest_even_cases.
  destruct (Z.eqb_spec M (2 ^ 53)) as [Heq|Hne].
  - destruct (Z.leb_spec (p + 1) 971) as [Hle|Hgt].
    + exists 4503599627370496%positive, (p + 1).
      split; [reflexivity|]. split; [reflexivity|lia].
    + exfalso. assert (Hp : p = 971) by lia.
      assert (HM0' : shr_m r = 2 ^ 53 - 1) by lia.
      assert (Hbit : Z.testbit n 970 = false).
      { rewrite Z.testbit_odd, Z.shiftr_div_pow2 by lia.
        assert (Hq : n / 2 ^ 970 = 2 ^ 54 - 2).
        { rewrite Hm, Hp in HM0'.
          assert (H1 : (2 ^ 53 - 1) * 2 ^ 971 <= n).
          { rewrite <- HM0'. rewrite Z.mul_comm.
            apply Z.mul_div_le. lia. }
          symmetry. apply Z.div_unique with (r := n - (2 ^ 54 - 2) * 2 ^ 970).
          - left. change (2 ^ 971) with (2 * 2 ^ 970) in H1.
            change (2 ^ 1024) with (2 ^ 54 * 2 ^ 970) in Hn. lia.
          - lia. }
        rewrite Hq. reflexivity. }
      replace (Z.log2 n - 53) with 970 in Hr by lia.
      rewrite Hbit in Hr.
      assert (HMr : M = shr_m r).
      { unfold M. destruct r as [rm rr rs]. cbn [shr_r] in Hr. subst rr.
        destruct rs; reflexivity. }
      lia.
  - destruct (Z.leb_spec p 971) as [Hle|Hgt]; [|lia].
    destruct M as [|mp|mp] eqn:HMp; try lia.
    exists mp, p. cbn [Z.to_pos]. split; [reflexivity|].
    split; [|lia]. apply digits2_unique. change (53 - 1) with 52. lia.
Qed.

Lemma of_int_overflow (n : Z) :
  2 ^ 1024 <= n ->
  Float.of_int n
  = Raise (mkExn OverflowError "int too large to convert to float").
Proof.
  intros Hn.
  destruct (normalize_big n ltac:(lia)) as (r & Hm & Hr & Hrun).
  unfold Float.of_int, Float.prec, Float.emax. rewrite Hrun. clear Hrun.
  assert (Hlog : 1024 <= Z.log2 n) by (apply Z.log2_le_pow2; lia).
  destruct (_ =? 2 ^ 53).
  - destruct (Z.leb_spec (Z.log2 n - 52 + 1) 971); [lia|reflexivity].
  - destruct (Z.leb_spec (Z.log2 n - 52) 971); [lia|reflexivity].
Qed.

End FloatFacts.

(** ** [is_prime] *)

Lemma elem_of_py_range_odd (r x : Z) :
  x ∈ py_range 3 (r + 1) 2 <-> 3 <= x <= r /\ exists k, 0 <= k /\ x = 3 + 2 * k.
Proof.
  unfold py_range. rewrite list_elem_of_fmap.
  replace (r + 1 - 3 + 2 - 1) with (r - 1) by lia.
  split.
  - intros (k & -> & Hk). apply elem_of_seq in Hk.
    assert (Z.of_nat k < (r - 1) / 2) by lia.
    split; [Z.div_mod_to_equations; lia|].
    exists (Z.of_nat k). lia.
  - intros (Hx & k & Hk & ->). exists (Z.to_nat k). split; [lia|].
    apply elem_of_seq.
    assert (k < (r - 1) / 2) by (Z.div_mod_to_equations; lia). lia.
Qed.

Lemma is_prime_loop_true (num : Z) (idx : list Z) :
  is_prime_loop num idx = true <-> forall i, i ∈ idx -> num mod i <> 0.
Proof.
  induction idx as [|i idx IH]; simpl.
  - split; [|done]. intros _ i Hi. by apply elem_of_nil in Hi.
  - destruct (Z.eqb_spec (num mod i) 0) as [Hz|Hnz].
    + split; [done|]. intros Hall. exfalso. apply (Hall i); [left|exact Hz].
    + rewrite IH. split.
      * intros Hall j Hj. apply elem_of_cons in Hj as [->|Hj]; auto.
      * intros Hall j Hj. apply Hall. by right.
Qed.

(** A number above 1 with no divisor between 2 and its square root is prime. *)
Lemma prime_no_small_divisor (n : Z) :
  1 < n ->
  (forall d, 2 <= d -> d * d <= n -> ~ (d | n)) ->
  Z.prime n.
Proof.
  intros Hn Hnone. split; [exact Hn|].
  intros k Hk [c Hc].
  assert (Hc1 : 1 < c) by nia.
  destruct (Z.le_gt_cases k c) as [Hle|Hgt].
  - apply (Hnone k); [lia|nia|]. exists c. exact Hc.
  - apply (Hnone c); [lia|nia|]. exists k. lia.
Qed.

Lemma is_prime_loop_decides (num r : Z) :
  3 <= num -> num mod 2 <> 0 ->
  Z.sqrt num <= r < num ->
  is_prime_loop num (py_range 3 (r + 1) 2) = true <-> Z.prime num.
Proof.
  intros Hnum Hodd Hr. rewrite is_prime_loop_true. split.
  - intros Hall. apply prime_no_small_divisor; [lia|].
    intros d Hd Hdd Hdiv.
    assert (Hdr : d <= Z.sqrt num) by (apply Z.sqrt_le_square; lia).
    destruct (Z.eq_dec (d mod 2) 0) as [Heven|Hodd'].
    + apply Hodd. apply Z.mod_divide; [lia|].
      apply Z.divide_trans with d; [|exact Hdiv].
      apply Z.mod_divide; [lia|exact Heven].
    + apply (Hall d).
      * apply elem_of_py_range_odd. split.
        -- split; [|lia].
           destruct (Z.eq_dec d 2) as [->|]; [done|lia].
        -- exists ((d - 3) / 2). Z.div_mod_to_equations. lia.
      * apply Z.mod_divide; [lia|exact Hdiv].
  - intros Hprime i Hi Hmod.
    apply elem_of_py_range_odd in Hi as [Hi _].
    apply Z.mod_divide in Hmod; [|lia].
    destruct Hprime as [_ Hnone]. apply (Hnone i); [lia|exact Hmod].
Qed.

Lemma is_prime_small (num : Z) :
  3 <= num < 2 ^ 53 -> num mod 2 <> 0 ->
  exists r, is_prime num = Ok (is_prime_loop num (py_range 3 (r + 1) 2))
            /\ Z.sqrt num <= r < num.
Proof.
  intros Hnum Hodd.
  destruct (FloatFacts.of_int_small num ltac:(lia)) as (m & e & Hx & Hd & He & Hm).
  assert (Hlog : 0 <= Z.log2 num < 53).
  { split; [apply Z.log2_nonneg|]. apply Z.log2_lt_pow2; lia. }
  destruct (FloatFacts.sqrt_float_bounds num m e ltac:(lia) Hd ltac:(lia) Hm)
    as (r & Hr & Hbound).
  exists r. split.
  - unfold is_prime.
    destruct (Z.ltb_spec num 2); [lia|].
    destruct (Z.eqb_spec num 2); [lia|].
    destruct (Z.eqb_spec (num mod 2) 0); [lia|].
    rewrite Hx. cbn [rbind]. rewrite Hr. reflexivity.
  - split; [lia|].
    assert (Z.sqrt num < num - 1); [|lia].
    apply Z.sqrt_lt_square; nia.
Qed.

Lemma is_prime_below (num : Z) :
  num < 2 ^ 53 ->
  exists b : bool, is_prime num = Ok b /\ (b = true <-> Z.prime num).
Proof.
  intros Hnum.
  destruct (Z.lt_ge_cases num 2) as [Hlt|Hge].
  { exists false. split.
    - unfold is_prime. destruct (Z.ltb_spec num 2); [done|lia].
    - split; [done|]. intros Hp. apply Z.prime_ge_2 in Hp. lia. }
  destruct (Z.eq_dec num 2) as [->|Hne].
  { exists true. split; [reflexivity|]. split; [intros _; apply Z.prime_2|done]. }
  destruct (Z.eq_dec (num mod 2) 0) as [Heven|Hodd].
  { exists false. split.
    - unfold is_prime.
      destruct (Z.ltb_spec num 2); [lia|].
      destruct (Z.eqb_spec num 2); [lia|].
      by rewrite Heven.
    - split; [done|]. intros Hp. exfalso.
      apply Z.mod_divide in Heven; [|lia].
      destruct Hp as [_ Hnone]. apply (Hnone 2); [lia|exact Heven]. }
  destruct (is_prime_small num ltac:(lia) Hodd) as (r & Hrun & Hr).
  exists (is_prime_loop num (py_range 3 (r + 1) 2)).
  split; [exact Hrun|]. apply is_prime_loop_decides; [lia|exact Hodd|exact Hr].
Qed.

Lemma is_prime_huge_raises (num : Z) :
  2 ^ 1024 <= num -> num mod 2 <> 0 ->
  is_prime num
  = Raise (mkExn OverflowError "int too large to convert to float").
Proof.
  intros Hnum Hodd. unfold is_prime.
  assert (2 < 2 ^ 1024) by reflexivity.
  destruct (Z.ltb_spec num 2); [lia|].
  destruct (Z.eqb_spec num 2); [lia|].
  destruct (Z.eqb_spec (num mod 2) 0); [lia|].
  rewrite FloatFacts.of_int_overflow by exact Hnum. reflexivity.
Qed.

Lemma is_prime_fermat_raises :
  is_prime (2 ^ 1024 + 1)
  = Raise (mkExn OverflowError "int too large to convert to float").
Proof. vm_compute. reflexivity. Qed.




(** ** [find_primes] *)

Lemma find_primes_loop_raises (nums : list Z) (num : Z) (e : exn) :
  num ∈ nums -> is_prime num = Raise e ->
  forall l, find_primes_loop nums <> Ok l.
Proof.
  induction nums as [|n nums IH]; intros Hin Hraise l.
  - by apply elem_of_nil in Hin.
  - apply elem_of_cons in Hin as [<-|Hin]; simpl.
    + by rewrite Hraise.
    + destruct (is_prime n) as [b|e']; [|done]. simpl.
      destruct (find_primes_loop nums) as [rest|e'] eqn:Hrest; [|done].
      exfalso. by apply (IH Hin Hraise rest).
Qed.

Lemma find_primes_loop_primes (nums : list Z) :
  (forall n, n ∈ nums -> n < 2 ^ 53) ->
  exists l, find_primes_loop nums = Ok l
            /\ (forall p, p ∈ l <-> p ∈ nums /\ Z.prime p)
            /\ (forall lo, Forall (Z.lt lo) nums -> Forall (Z.lt lo) l)
            /\ (StronglySorted Z.lt nums -> StronglySorted Z.lt l).
Proof.
  induction nums as [|n nums IH]; intros Hsmall.
  - exists []. split; [reflexivity|]. split; [|by split].
    intros p. split; [intros Hp; by apply elem_of_nil in Hp|].
    intros [Hp _]. by apply elem_of_nil in Hp.
  - destruct IH as (rest & Hrest & Hmem & Hlb & Hsorted).
    { intros k Hk. apply Hsmall. by right. }
    destruct (is_prime_below n) as (b & Hb & Hdec).
    { apply Hsmall. by left. }
    exists (if b then n :: rest else rest).
    split; [simpl; by rewrite Hb, Hrest|].
    split; [|split].
    + intros p. destruct b.
      * rewrite !elem_of_cons, Hmem. split.
        -- intros [->|[Hp Hpr]]; [split; [by left|by apply Hdec]|].
           split; [by right|done].
        -- intros [[->|Hp] Hpr]; [by left|by right].
      * rewrite elem_of_cons, Hmem. split.
        -- intros [Hp Hpr]. split; [by right|done].
        -- intros [[->|Hp] Hpr]; [|done].
           apply Hdec in Hpr. discriminate.
    + intros lo Hlo. apply Forall_cons in Hlo as [Hn Hlo].
      destruct b; [apply Forall_cons; split; [done|]|]; by apply Hlb.
    + intros Hs. apply StronglySorted_inv in Hs as [Hs Hn].
      destruct b; [|by apply Hsorted].
      apply SSorted_cons; [by apply Hsorted|by apply Hlb].
Qed.

Lemma py_range_unit_sorted (a b : Z) : StronglySorted Z.lt (py_range a b 1).
Proof.
  rewrite py_range_unit. generalize (Z.to_nat (b - a)) as c.
  generalize 0%nat as j. intros j c. revert j.
  induction c as [|c IH]; intros j; simpl; [constructor|].
  apply SSorted_cons; [apply IH|].
  apply Forall_forall. intros x Hx.
  apply list_elem_of_fmap in Hx as (k & -> & Hk).
  apply elem_of_seq in Hk. lia.
Qed.

Lemma py_range_last (x : Z) : 2 <= x -> x ∈ py_range 2 (x + 1) 1.
Proof. intros Hx. apply elem_of_py_range_unit. lia. Qed.

Lemma find_primes_unfold (limit : Z) :
  find_primes limit = find_primes_loop (py_range 2 (limit + 1) 1).
Proof. reflexivity. Qed.




(** ** [format_file_size] *)

Import FloatFacts.

Lemma round_half_even_scale (n d c : Z) :
  0 < d -> 0 < c ->
  FloatText.round_half_even (n * c) (d * c) = FloatText.round_half_even n d.
Proof.
  intros Hd Hc. unfold FloatText.round_half_even.
  rewrite Z.div_mul_cancel_r by lia.
  rewrite Z.mul_mod_distr_r by lia.
  replace (2 * (n mod d * c)) with (2 * (n mod d) * c) by lia.
  assert (Hcmp : (2 * (n mod d) * c ?= d * c) = (2 * (n mod d) ?= d)).
  { destruct (Z.compare_spec (2 * (n mod d) * c) (d * c)),
      (Z.compare_spec (2 * (n mod d)) d); try reflexivity; nia. }
  rewrite Hcmp. reflexivity.
Qed.

Lemma fixed1_scale (n d c : Z) :
  0 < d -> 0 < c -> FloatText.fixed1 (n * c) (d * c) = FloatText.fixed1 n d.
Proof.
  intros Hd Hc. unfold FloatText.fixed1.
  replace (10 * (n * c)) with (10 * n * c) by lia.
  rewrite round_half_even_scale by lia. reflexivity.
Qed.

Lemma loop_float_step (u : string) (us : list string) (m : positive) (e : Z) :
  Zpos (digits2_pos m) = 53 ->
  -1063 <= e <= 971 ->
  format_file_size_loop (u :: us) (PFloat (S754_finite false m e))
  = if e <? -42
    then Ok (FloatText.format_1f (S754_finite false m e) +:+ " " +:+ u)
    else format_file_size_loop us (PFloat (S754_finite false m (e - 10))).
Proof.
  intros Hd He. cbn [format_file_size_loop PyNum.lt].
  rewrite ltb_f1024 by exact Hd.
  destruct (e <? -42); [reflexivity|].
  cbn [PyNum.truediv PyNum.to_float rbind].
  change (PyNum.is_zero Float.f1024) with false. cbv iota.
  rewrite div_f1024 by assumption. reflexivity.
Qed.

Lemma loop_int_step (u : string) (us : list string) (size : Z)
  (m : positive) (e : Z) :
  Float.of_int size = Ok (S754_finite false m e) ->
  Zpos (digits2_pos m) = 53 ->
  -1063 <= e <= 971 ->
  format_file_size_loop (u :: us) (PInt size)
  = if size <? 1024
    then Ok (FloatText.format_1f (S754_finite false m e) +:+ " " +:+ u)
    else format_file_size_loop us (PFloat (S754_finite false m (e - 10))).
Proof.
  intros Hx Hd He. cbn [format_file_size_loop PyNum.lt].
  assert (Hlt : PyNum.int_lt_float size Float.f1024 = (size <? 1024)).
  { unfold PyNum.int_lt_float, Float.f1024.
    change (FloatText.numerator 4503599627370496 (-42))
      with (1024 * 2 ^ 42).
    change (FloatText.denominator (-42)) with (2 ^ 42).
    destruct (Z.ltb_spec size 1024), (Z.ltb_spec (size * 2 ^ 42) (1024 * 2 ^ 42));
      try reflexivity; lia. }
  rewrite Hlt. destruct (size <? 1024).
  - unfold PyNum.format_1f. cbn [PyNum.to_float]. rewrite Hx. reflexivity.
  - cbn [PyNum.truediv PyNum.to_float]. rewrite Hx. cbn [rbind].
    change (PyNum.is_zero Float.f1024) with false. cbv iota.
    rewrite div_f1024 by assumption. reflexivity.
Qed.

(** The whole loop, unrolled over the five units. *)
Lemma format_file_size_unrolled (size : Z) (m : positive) (e : Z) :
  Float.of_int size = Ok (S754_finite false m e) ->
  Zpos (digits2_pos m) = 53 ->
  -1000 <= e <= 971 ->
  format_file_size size
  = let text k := FloatText.format_1f (S754_finite false m (e - 10 * k)) in
    if size <? 1024 then Ok (text 0 +:+ " B")
    else if e - 10 <? -42 then Ok (text 1 +:+ " KB")
    else if e - 20 <? -42 then Ok (text 2 +:+ " MB")
    else if e - 30 <? -42 then Ok (text 3 +:+ " GB")
    else if e - 40 <? -42 then Ok (text 4 +:+ " TB")
    else Ok (text 5 +:+ " PB").
Proof.
  intros Hx Hd He. unfold format_file_size, size_units. cbv zeta.
  rewrite (loop_int_step _ _ size m e Hx Hd) by lia.
  replace (e - 10 * 0) with e by lia.
  destruct (size <? 1024); [reflexivity|].
  rewrite loop_float_step by (assumption || lia).
  replace (e - 10 * 1) with (e - 10) by lia.
  destruct (e - 10 <? -42); [reflexivity|].
  rewrite loop_float_step by (assumption || lia).
  replace (e - 10 - 10) with (e - 20) by lia.
  replace (e - 10 * 2) with (e - 20) by lia.
  destruct (e - 20 <? -42); [reflexivity|].
  rewrite loop_float_step by (assumption || lia).
  replace (e - 20 - 10) with (e - 30) by lia.
  replace (e - 10 * 3) with (e - 30) by lia.
  destruct (e - 30 <? -42); [reflexivity|].
  rewrite loop_float_step by (assumption || lia).
  replace (e - 30 - 10) with (e - 40) by lia.
  replace (e - 10 * 4) with (e - 40) by lia.
  destruct (e - 40 <? -42); [reflexivity|].
  cbn [format_file_size_loop]. unfold PyNum.format_1f.
  cbn [PyNum.to_float rbind].
  replace (e - 10 * 5) with (e - 40 - 10) by lia. reflexivity.
Qed.

(** An exact double printed to one decimal place prints the fraction it
    stands for. *)
Lemma format_1f_exact (size : Z) (m : positive) (e k : Z) :
  1 <= size -> 0 <= k -> e <= 0 ->
  Zpos m = size * 2 ^ (- e) ->
  e - 10 * k < 0 ->
  FloatText.format_1f (S754_finite false m (e - 10 * k))
  = FloatText.fixed1 size (1024 ^ k).
Proof.
  intros Hsize Hk He Hm Hneg. cbn [FloatText.format_1f].
  unfold FloatText.numerator, FloatText.denominator.
  destruct (Z.leb_spec 0 (e - 10 * k)); [lia|].
  change (EmptyString +:+ ?s) with s.
  rewrite Hm.
  replace (- (e - 10 * k)) with (10 * k + - e) by lia.
  rewrite pow2_split by lia.
  change 1024 with (2 ^ 10). rewrite <- Z.pow_mul_r by lia.
  apply fixed1_scale; apply Z.pow_pos_nonneg; lia.
Qed.

Lemma pow1024 (k : Z) : 0 <= k -> 1024 ^ k = 2 ^ (10 * k).
Proof. intros Hk. change 1024 with (2 ^ 10). rewrite <- Z.pow_mul_r; lia. Qed.

Lemma format_file_size_small (size k : Z) (unit : string) :
  0 <= k <= 4 ->
  1024 ^ k <= size < 1024 ^ (k + 1) ->
  size_units !! Z.to_nat k = Some unit ->
  format_file_size size
  = Ok (FloatText.fixed1 size (1024 ^ k) +:+ " " +:+ unit).
Proof.
  intros Hk Hsize Hunit.
  rewrite !pow1024 in Hsize by lia.
  assert (Hpos : 0 < 2 ^ (10 * k)) by (apply Z.pow_pos_nonneg; lia).
  assert (Hlog : 10 * k <= Z.log2 size < 10 * (k + 1)).
  { split; [apply Z.log2_le_pow2; lia|apply Z.log2_lt_pow2; lia]. }
  assert (Hbig : 2 ^ (10 * (k + 1)) <= 2 ^ 50)
    by (apply Z.pow_le_mono_r; lia).
  destruct (of_int_small size) as (m & e & Hx & Hd & He & Hm).
  { change (2 ^ 53) with (8 * 2 ^ 50). lia. }
  rewrite (format_file_size_unrolled size m e Hx Hd) by lia.
  cbv beta zeta.
  rewrite !(format_1f_exact size m e) by lia.
  assert (Hcases : k = 0 \/ k = 1 \/ k = 2 \/ k = 3 \/ k = 4) by lia.
  destruct Hcases as [->|[->|[->|[->| ->]]]];
    cbn in Hunit; injection Hunit as <-;
    change (10 * 0) with 0 in *; change (10 * 1) with 10 in *;
    change (10 * 2) with 20 in *; change (10 * 3) with 30 in *;
    change (10 * 4) with 40 in *; change (10 * 5) with 50 in *;
    cbn [Z.add Pos.add Pos.succ Z.mul Pos.mul] in *;
    repeat match goal with
      | |- context [?a <? ?b] => destruct (Z.ltb_spec a b); try lia
      end;
    try reflexivity.
Qed.

Lemma format_file_size_pb_exact (size : Z) :
  1024 ^ 5 <= size < 2 ^ 53 ->
  format_file_size size
  = Ok (FloatText.fixed1 size (1024 ^ 5) +:+ " PB").
Proof.
  intros Hsize. change (1024 ^ 5) with (2 ^ 50) in Hsize.
  assert (Hlog : 50 <= Z.log2 size < 53).
  { split; [apply Z.log2_le_pow2; lia|apply Z.log2_lt_pow2; lia]. }
  destruct (of_int_small size ltac:(lia)) as (m & e & Hx & Hd & He & Hm).
  rewrite (format_file_size_unrolled size m e Hx Hd) by lia.
  cbv beta zeta.
  rewrite (format_1f_exact size m e 5) by lia.
  repeat match goal with
    | |- context [?a <? ?b] => destruct (Z.ltb_spec a b); try lia
    end.
  reflexivity.
Qed.

Lemma format_file_size_pb (size : Z) :
  1024 ^ 5 <= size < 2 ^ 1024 - 2 ^ 970 ->
  exists s : string, format_file_size size = Ok (s +:+ " PB").
Proof.
  intros Hsize.
  destruct (Z.lt_ge_cases size (2 ^ 53)) as [Hlt|Hge].
  { eexists. apply format_file_size_pb_exact. lia. }
  change (1024 ^ 5) with (2 ^ 50) in Hsize.
  destruct (of_int_big size ltac:(lia)) as (m & e & Hx & Hd & He).
  rewrite (format_file_size_unrolled size m e Hx Hd) by lia.
  cbv beta zeta.
  repeat match goal with
    | |- context [?a <? ?b] => destruct (Z.ltb_spec a b); try lia
    end.
  eexists. reflexivity.
Qed.

Lemma format_file_size_overflow (size : Z) :
  2 ^ 1024 <= size ->
  format_file_size size
  = Raise (mkExn OverflowError "int too large to convert to float").
Proof.
  intros Hsize. unfold format_file_size, size_units.
  cbn [format_file_size_loop PyNum.lt].
  assert (Hlt : PyNum.int_lt_float size Float.f1024 = false).
  { unfold PyNum.int_lt_float, Float.f1024.
    change (FloatText.numerator 4503599627370496 (-42))
      with (1024 * 2 ^ 42).
    change (FloatText.denominator (-42)) with (2 ^ 42).
    destruct (Z.ltb_spec (size * 2 ^ 42) (1024 * 2 ^ 42)); [|reflexivity].
    assert (1024 < 2 ^ 1024) by reflexivity. lia. }
  rewrite Hlt. cbn [PyNum.truediv PyNum.to_float].
  rewrite of_int_overflow by exact Hsize. reflexivity.
Qed.

(** C8 counterexample: [2^1024] is at least [1024^5], but
    [format_file_size(2^1024)] raises [OverflowError] at the first division
    by [1024.0] and reports nothing. *)
Lemma format_file_size_overflows :
  1024 ^ 5 <= 2 ^ 1024
  /\ format_file_size (2 ^ 1024)
     = Raise (mkExn OverflowError "int too large to convert to float")
  /\ ~ (exists s : string, format_file_size (2 ^ 1024) = Ok (s +:+ " PB")).
Proof.
  assert (Hrun : format_file_size (2 ^ 1024)
    = Raise (mkExn OverflowError "int too large to convert to float"))
    by (vm_compute; reflexivity).
  split; [vm_compute; discriminate|]. split; [exact Hrun|].
  intros [s Hs]. rewrite Hrun in Hs. discriminate.
Qed.

(** C8: [format_file_size(1024 * 1024)] is ["1.0 MB"].  For every
    [size_bytes] with [1024^k <= size_bytes < 1024^(k+1)] and
    [0 <= k <= 4] the result is [size_bytes / 1024^k] printed to one decimal
    place (rounded to nearest, ties to even), a space and the [k]-th unit of
    B, KB, MB, GB, TB.  Every size from [1024^5] up to, not including,
    [2^1024 - 2^970] is reported in PB, exactly so below 2^53; sizes from
    [2^1024] on raise [OverflowError]. *)
Theorem format_file_size_units :
  format_file_size (1024 * 1024) = Ok "1.0 MB"%string
  /\ (forall (size k : Z) (unit : string),
        0 <= k <= 4 ->
        1024 ^ k <= size < 1024 ^ (k + 1) ->
        size_units !! Z.to_nat k = Some unit ->
        format_file_size size
        = Ok (FloatText.fixed1 size (1024 ^ k) +:+ " " +:+ unit))
  /\ (forall size : Z,
        1024 ^ 5 <= size < 2 ^ 1024 - 2 ^ 970 ->
        exists s : string, format_file_size size = Ok (s +:+ " PB"))
  /\ (forall size : Z,
        1024 ^ 5 <= size < 2 ^ 53 ->
        format_file_size size
        = Ok (FloatText.fixed1 size (1024 ^ 5) +:+ " PB"))
  /\ (forall size : Z,
        2 ^ 1024 <= size ->
        format_file_size size
        = Raise (mkExn OverflowError "int too large to convert to float")).
Proof.
  split; [vm_compute; reflexivity|].
  split; [exact format_file_size_small|].
  split; [exact format_file_size_pb|].
  split; [exact format_file_size_pb_exact|exact format_file_size_overflow].
Qed.

Lemma format_file_size_units_witness :
  format_file_size 1280 = Ok "1.2 KB"%string
  /\ exists s : string, format_file_size (2 ^ 60) = Ok (s +:+ " PB").
Proof.
  destruct format_file_size_units as (_ & Hsmall & Hpb & _).
  split.
  - rewrite (Hsmall 1280 1 "KB"%string); [reflexivity|lia|lia|reflexivity].
  - apply Hpb. split; [vm_compute; discriminate|reflexivity].
Defined.

(** * Further properties *)

(** ** [squares], [even_numbers] and [filter_strings_by_length] *)

Lemma py_range_step_sorted (a s : Z) (j c : nat) :
  0 < s ->
  StronglySorted Z.lt (map (fun k => a + Z.of_nat k * s) (seq j c)).
Proof.
  intros Hs. revert j. induction c as [|c IH]; intros j; simpl; [constructor|].
  apply SSorted_cons; [apply IH|].
  apply Forall_forall. intros x Hx.
  apply list_elem_of_fmap in Hx as (k & -> & Hk).
  apply elem_of_seq in Hk. nia.
Qed.

Lemma squares_unfold (n : Z) :
  squares n = map (fun k => (Z.of_nat k + 1) ^ 2) (seq 0 (Z.to_nat n)).
Proof.
  unfold squares. rewrite py_range_unit, map_map.
  replace (n + 1 - 1) with n by lia.
  apply map_ext. intros k. f_equal. lia.
Qed.

Lemma sum_squares_prefix (c : nat) :
  6 * foldr Z.add 0 (map (fun k => (Z.of_nat k + 1) ^ 2) (seq 0 c))
  = Z.of_nat c * (Z.of_nat c + 1) * (2 * Z.of_nat c + 1).
Proof.
  induction c as [|c IH]; [reflexivity|].
  rewrite seq_S, map_app, foldr_app. cbn [map foldr Nat.add].
  assert (Hshift : forall (l : list Z) (x : Z),
             foldr Z.add x l = foldr Z.add 0 l + x).
  { induction l as [|y l IHl]; intros x; cbn [foldr]; [lia|].
    rewrite IHl. lia. }
  rewrite Hshift. nia.
Qed.

(** X1: [squares n] lists the squares of 1, ..., [n]: item [k] (from 0) is
    [(k + 1)^2] for [k < n] and there is no other item, so the list is empty
    for [n <= 0]; the items increase strictly, and six times their sum is
    [n (n + 1) (2 n + 1)]. *)
Theorem squares_items (n : Z) :
  (forall k : nat,
     squares n !! k
     = if Z.of_nat k <? n then Some ((Z.of_nat k + 1) ^ 2) else None)
  /\ StronglySorted Z.lt (squares n)
  /\ 6 * foldr Z.add 0 (squares n)
     = Z.max n 0 * (Z.max n 0 + 1) * (2 * Z.max n 0 + 1).
Proof.
  rewrite squares_unfold. split; [|split].
  - intros k. rewrite list_lookup_fmap.
    destruct (Z.ltb_spec (Z.of_nat k) n) as [Hlt|Hge].
    + rewrite lookup_seq_lt by lia. reflexivity.
    + rewrite lookup_seq_ge by lia. reflexivity.
  - generalize (Z.to_nat n) as c. generalize 0%nat as j.
    intros j c. revert j. induction c as [|c IH]; intros j; simpl;
      [constructor|].
    apply SSorted_cons; [apply IH|].
    apply Forall_forall. intros x Hx.
    apply list_elem_of_fmap in Hx as (k & -> & Hk).
    apply elem_of_seq in Hk. nia.
  - rewrite sum_squares_prefix. destruct (Z.le_gt_cases n 0).
    + replace (Z.to_nat n) with 0%nat by lia.
      replace (Z.max n 0) with 0 by lia. reflexivity.
    + rewrite Z2Nat.id by lia. replace (Z.max n 0) with n by lia.
      reflexivity.
Qed.

Lemma even_numbers_unfold (limit : Z) :
  even_numbers limit
  = map (fun k => 2 + Z.of_nat k * 2) (seq 0 (Z.to_nat (limit / 2))).
Proof.
  unfold even_numbers, py_range. rewrite map_map.
  replace (limit + 1 - 2 + 2 - 1) with limit by lia. reflexivity.
Qed.

(** X2: [even_numbers limit] lists exactly the even numbers from 2 to
    [limit], in increasing order: it has [limit // 2] items for
    [limit >= 0] and none for [limit < 2]. *)
Theorem even_numbers_items (limit : Z) :
  (forall x : Z, x ∈ even_numbers limit <-> 2 <= x <= limit /\ x mod 2 = 0)
  /\ StronglySorted Z.lt (even_numbers limit)
  /\ length (even_numbers limit) = Z.to_nat (limit / 2).
Proof.
  rewrite even_numbers_unfold. split; [|split].
  - intros x. rewrite list_elem_of_fmap. split.
    + intros (k & -> & Hk). apply elem_of_seq in Hk.
      assert (Z.of_nat k < limit / 2) by lia.
      split; Z.div_mod_to_equations; lia.
    + intros [Hx Hmod]. exists (Z.to_nat (x / 2 - 1)).
      assert (Hk : 0 <= x / 2 - 1 < limit / 2)
        by (Z.div_mod_to_equations; lia).
      split; [|apply elem_of_seq; lia].
      rewrite Z2Nat.id by lia. Z.div_mod_to_equations. lia.
  - apply py_range_step_sorted. lia.
  - rewrite length_map, length_seq. reflexivity.
Qed.

Lemma filter_strings_by_length_elem (strings : list string) (m : Z)
  (s : string) :
  s ∈ filter_strings_by_length strings m <-> s ∈ strings /\ m <= Str.len s.
Proof.
  unfold filter_strings_by_length.
  rewrite !list_elem_of_In, filter_In, Z.leb_le. reflexivity.
Qed.

(** X3: [filter_strings_by_length] keeps exactly the strings of length at
    least [min_length], in their order; with [min_length <= 0] it returns
    the whole list; and filtering twice is filtering once by the larger
    bound. *)
Theorem filter_strings_by_length_keeps (strings : list string)
  (min_length other : Z) :
  (forall s : string,
     s ∈ filter_strings_by_length strings min_length
     <-> s ∈ strings /\ min_length <= Str.len s)
  /\ filter_strings_by_length strings min_length `sublist_of` strings
  /\ (min_length <= 0 ->
      filter_strings_by_length strings min_length = strings)
  /\ filter_strings_by_length
       (filter_strings_by_length strings min_length) other
     = filter_strings_by_length strings (Z.max min_length other).
Proof.
  split; [intros s; apply filter_strings_by_length_elem|].
  unfold filter_strings_by_length. split; [|split].
  - induction strings as [|s strings IH]; simpl; [constructor|].
    destruct (min_length <=? Str.len s).
    + by apply sublist_skip.
    + by apply sublist_cons.
  - intros Hmin. induction strings as [|s strings IH]; simpl; [done|].
    unfold Str.len at 1.
    destruct (Z.leb_spec min_length (Z.of_nat (String.length s))); [|lia].
    by rewrite IH.
  - induction strings as [|s strings IH]; simpl; [done|].
    destruct (Z.leb_spec min_length (Str.len s)),
      (Z.leb_spec (Z.max min_length other) (Str.len s)); simpl;
      rewrite ?IH;
      try (destruct (Z.leb_spec other (Str.len s)));
      try reflexivity; lia.
Qed.

(** ** [number_generator] *)

Lemma py_range_cons (a b s : Z) :
  0 < s -> a < b -> py_range a b s = a :: py_range (a + s) b s.
Proof.
  intros Hs Hab. unfold py_range.
  assert (Hc : Z.to_nat ((b - a + s - 1) / s)
               = S (Z.to_nat ((b - (a + s) + s - 1) / s))).
  { replace (b - a + s - 1) with ((b - (a + s) + s - 1) + 1 * s) by lia.
    rewrite Z.div_add by lia.
    assert (0 <= (b - (a + s) + s - 1) / s)
      by (apply Z.div_pos; lia). lia. }
  rewrite Hc. cbn [seq map]. f_equal; [lia|].
  rewrite <- seq_shift, map_map. apply map_ext. intros k. lia.
Qed.

Lemma py_range_nil (a b s : Z) : 0 < s -> b <= a -> py_range a b s = [].
Proof.
  intros Hs Hab. unfold py_range.
  assert ((b - a + s - 1) / s <= 0).
  { apply Z.lt_succ_r. apply Z.div_lt_upper_bound; lia. }
  replace (Z.to_nat ((b - a + s - 1) / s)) with 0%nat by lia. reflexivity.
Qed.

(** X4: with a step of at least 1, [number_generator(start, end, step)]
    yields exactly the items of [range(start, end, step)] and then returns
    (nothing at all when [start >= end]); any number of turns beyond the
    number of items is enough. *)
Theorem number_generator_yields_range (fuel : nat) (current end_ step : Z) :
  1 <= step ->
  (length (py_range current end_ step) < fuel)%nat ->
  number_generator fuel current end_ step
  = (py_range current end_ step, true).
Proof.
  intros Hstep. revert current.
  induction fuel as [|fuel IH]; intros current Hfuel; [lia|].
  cbn [number_generator].
  destruct (Z.ltb_spec current end_) as [Hlt|Hge].
  - rewrite (py_range_cons current end_ step) in * by lia.
    cbn [length] in Hfuel. rewrite IH by lia. reflexivity.
  - rewrite py_range_nil by lia. reflexivity.
Qed.

Lemma number_generator_yields_range_witness :
  number_generator 6 1 6 1 = (py_range 1 6 1, true).
Proof.
  apply (number_generator_yields_range 6 1 6 1); [lia|vm_compute; lia].
Defined.

(** X5: with a step of zero or less and [start < end] the generator never
    returns: after any number of turns it has yielded [start],
    [start + step], [start + 2 step], ... and is still running. *)
Theorem number_generator_never_returns (fuel : nat) (current end_ step : Z) :
  step <= 0 -> current < end_ ->
  number_generator fuel current end_ step
  = (map (fun k => current + Z.of_nat k * step) (seq 0 fuel), false).
Proof.
  intros Hstep. revert current.
  induction fuel as [|fuel IH]; intros current Hlt; [reflexivity|].
  cbn [number_generator].
  destruct (Z.ltb_spec current end_); [|lia].
  rewrite IH by lia. cbn [seq map]. f_equal. f_equal; [lia|].
  rewrite <- seq_shift, map_map. apply map_ext. intros k. lia.
Qed.

Lemma number_generator_never_returns_witness :
  number_generator 4 1 6 0 = ([1; 1; 1; 1], false).
Proof. apply (number_generator_never_returns 4 1 6 0); lia. Defined.

(** ** [word_count] *)

Lemma occurrences_cons (w x : string) (ws : list string) :
  occurrences w (x :: ws)
  = (if String.eqb w x then 1 else 0) + occurrences w ws.
Proof.
  unfold occurrences. cbn [List.filter].
  destruct (String.eqb w x); cbn [length]; lia.
Qed.

Lemma occurrences_app (w : string) (ws1 ws2 : list string) :
  occurrences w (ws1 ++ ws2) = occurrences w ws1 + occurrences w ws2.
Proof.
  unfold occurrences. rewrite List.filter_app, length_app. lia.
Qed.

Lemma occurrences_nonneg (w : string) (ws : list string) :
  0 <= occurrences w ws.
Proof. unfold occurrences. lia. Qed.

Lemma occurrences_pos_elem (w : string) (ws : list string) :
  0 < occurrences w ws <-> w ∈ ws.
Proof.
  induction ws as [|x ws IH].
  - split; [unfold occurrences; simpl; lia|]. intros H. by apply elem_of_nil in H.
  - rewrite occurrences_cons, elem_of_cons.
    pose proof (occurrences_nonneg w ws).
    destruct (String.eqb_spec w x) as [->|Hne].
    + split; [by left|lia].
    + split.
      * intros Hpos. right. apply IH. lia.
      * intros [Heq|Hin]; [done|]. apply IH in Hin. lia.
Qed.

(** The loop of [word_count], started from any dictionary. *)
Lemma foldl_count_word (ws : list string) (d : gmap string Z) (w : string) :
  foldl count_word d ws !! w
  = let c := occurrences w
               (List.filter (fun x => negb (String.eqb x EmptyString))
                  (map (Str.keep Str.isalnum) ws)) in
    if c =? 0 then d !! w else Some (default 0 (d !! w) + c).
Proof.
  revert d. induction ws as [|x ws IH]; intros d; [reflexivity|].
  cbn [foldl map List.filter]. rewrite IH. cbv zeta.
  set (rest := List.filter (fun x => negb (String.eqb x EmptyString))
                 (map (Str.keep Str.isalnum) ws)).
  pose proof (occurrences_nonneg w rest) as Hrest.
  unfold count_word.
  destruct (Str.keep Str.isalnum x) as [|c x'] eqn:Hx.
  - reflexivity.
  - cbn [String.eqb negb]. rewrite occurrences_cons.
    destruct (String.eqb_spec w (String c x')) as [->|Hne].
    + rewrite lookup_insert_eq. cbn [default].
      set (o := occurrences (String c x') rest) in *.
      destruct (Z.eqb_spec o 0), (Z.eqb_spec (1 + o) 0); try lia;
        unfold default, id; apply (f_equal Some); lia.
    + rewrite lookup_insert_ne by done. cbn [Z.add]. reflexivity.
Qed.

Lemma word_count_lookup (text w : string) :
  word_count text !! w
  = if occurrences w (counted_words text) =? 0 then None
    else Some (occurrences w (counted_words text)).
Proof.
  unfold word_count, counted_words. rewrite foldl_count_word. cbv zeta.
  rewrite lookup_empty. cbn [default].
  destruct (_ =? 0); [reflexivity|]. f_equal.
Qed.

(** X6: the dictionary of [word_count] maps each word to the number of
    times it occurs among the counted words (the whitespace-separated words
    of the lowered text, stripped of every character that is not a letter
    or a digit), and its keys are exactly the counted words: it has no
    entry for a word that does not occur. *)
Theorem word_count_counts (text w : string) :
  word_count text !! w
  = (if occurrences w (counted_words text) =? 0 then None
     else Some (occurrences w (counted_words text)))
  /\ (w ∈ dom (word_count text) <-> w ∈ counted_words text).
Proof.
  split; [apply word_count_lookup|].
  rewrite elem_of_dom, word_count_lookup.
  pose proof (occurrences_nonneg w (counted_words text)) as Hocc.
  destruct (Z.eqb_spec (occurrences w (counted_words text)) 0) as [Hz|Hnz].
  - split; [intros [c Hc]; discriminate|].
    intros Hin. exfalso. revert Hz. unfold occurrences.
    apply list_elem_of_In in Hin.
    assert (Hf : In w (List.filter (String.eqb w) (counted_words text))).
    { apply filter_In. split; [exact Hin|apply String.eqb_refl]. }
    destruct (List.filter (String.eqb w) (counted_words text));
      [destruct Hf|cbn [length]; lia].
  - split; [|intros _; by eexists].
    intros _. apply occurrences_pos_elem. lia.
Qed.

Lemma keep_idempotent (p : ascii -> bool) (s : string) :
  Str.keep p (Str.keep p s) = Str.keep p s.
Proof.
  induction s as [|c s IH]; [reflexivity|]. cbn [Str.keep].
  destruct (p c) eqn:Hp; [|exact IH]. cbn [Str.keep]. by rewrite Hp, IH.
Qed.

Lemma chars_snoc (s : string) (c : ascii) :
  list_ascii_of_string (s +:+ String c EmptyString)
  = list_ascii_of_string s ++ [c].
Proof. induction s as [|x s IH]; [reflexivity|]. simpl. by rewrite IH. Qed.

Lemma split_from_chars (P : ascii -> Prop) (s word w : string) :
  Forall P (list_ascii_of_string s) ->
  Forall P (list_ascii_of_string word) ->
  w ∈ Str.split_from s word ->
  Forall P (list_ascii_of_string w).
Proof.
  revert word. induction s as [|c s IH]; intros word Hs Hword Hw.
  - cbn [Str.split_from] in Hw. destruct word.
    + by apply elem_of_nil in Hw.
    + apply list_elem_of_singleton in Hw. by subst.
  - cbn [list_ascii_of_string] in Hs. apply Forall_cons in Hs as [Hc Hs].
    cbn [Str.split_from] in Hw. destruct (Str.isspace c).
    + destruct word.
      * apply (IH EmptyString); [done|constructor|done].
      * apply elem_of_cons in Hw as [->|Hw]; [done|].
        apply (IH EmptyString); [done|constructor|done].
    + apply (IH (word +:+ String c EmptyString)); [done| |done].
      rewrite chars_snoc. apply Forall_app. split; [done|].
      by apply Forall_singleton.
Qed.

Lemma keep_chars (P : ascii -> Prop) (p : ascii -> bool) (s : string) :
  Forall P (list_ascii_of_string s) ->
  Forall P (list_ascii_of_string (Str.keep p s)).
Proof.
  induction s as [|c s IH]; intros Hs; [constructor|].
  cbn [list_ascii_of_string] in Hs. apply Forall_cons in Hs as [Hc Hs].
  cbn [Str.keep]. destruct (p c); [|by apply IH].
  cbn [list_ascii_of_string]. apply Forall_cons. split; [done|by apply IH].
Qed.

Lemma keep_all (p : ascii -> bool) (s : string) :
  Forall (fun c => p c = true) (list_ascii_of_string (Str.keep p s)).
Proof.
  induction s as [|c s IH]; [constructor|]. cbn [Str.keep].
  destruct (p c) eqn:Hp; [|exact IH].
  cbn [list_ascii_of_string]. by apply Forall_cons.
Qed.

Lemma lower_char_idempotent (c : ascii) :
  Str.lower_char (Str.lower_char c) = Str.lower_char c.
Proof.
  destruct c as [[] [] [] [] [] [] [] []]; vm_compute; reflexivity.
Qed.

Lemma lower_char_isspace (c : ascii) :
  Str.isspace (Str.lower_char c) = Str.isspace c.
Proof.
  destruct c as [[] [] [] [] [] [] [] []]; vm_compute; reflexivity.
Qed.

Lemma lower_chars (s : string) :
  Forall (fun c => Str.lower_char c = c) (list_ascii_of_string (Str.lower s)).
Proof.
  induction s as [|c s IH]; [constructor|].
  cbn [Str.lower list_ascii_of_string]. apply Forall_cons.
  split; [apply lower_char_idempotent|exact IH].
Qed.

Lemma lower_fixed (s : string) :
  Forall (fun c => Str.lower_char c = c) (list_ascii_of_string s) ->
  Str.lower s = s.
Proof.
  induction s as [|c s IH]; intros Hs; [reflexivity|].
  cbn [list_ascii_of_string] in Hs. apply Forall_cons in Hs as [Hc Hs].
  cbn [Str.lower]. by rewrite Hc, IH.
Qed.

Lemma counted_words_elem (text w : string) :
  w ∈ counted_words text ->
  w <> EmptyString
  /\ exists word, word ∈ Str.split (Str.lower text)
                  /\ w = Str.keep Str.isalnum word.
Proof.
  unfold counted_words. rewrite list_elem_of_In, filter_In.
  intros [Hin Hne]. split.
  - intros ->. discriminate.
  - apply in_map_iff in Hin as (word & <- & Hword).
    exists word. split; [by apply list_elem_of_In|reflexivity].
Qed.

(** X7: every key of the dictionary of [word_count] is a non-empty word
    made of letters and digits only, is in lower case (unchanged by
    [lower()]), and is counted at least once. *)
Theorem word_count_keys (text w : string) (c : Z) :
  word_count text !! w = Some c ->
  w <> EmptyString
  /\ Forall (fun x => Str.isalnum x = true) (list_ascii_of_string w)
  /\ Str.lower w = w
  /\ 1 <= c.
Proof.
  rewrite word_count_lookup. intros Hc.
  pose proof (occurrences_nonneg w (counted_words text)) as Hocc.
  destruct (Z.eqb_spec (occurrences w (counted_words text)) 0) as [|Hpos];
    [discriminate|].
  injection Hc as <-.
  assert (Hin : w ∈ counted_words text) by (apply occurrences_pos_elem; lia).
  apply counted_words_elem in Hin as (Hne & word & Hword & ->).
  split; [exact Hne|]. split; [apply keep_all|]. split; [|lia].
  apply lower_fixed, keep_chars.
  apply (split_from_chars _ (Str.lower text) EmptyString);
    [apply lower_chars|constructor|exact Hword].
Qed.

Lemma word_count_keys_witness :
  "python"%string <> EmptyString
  /\ Forall (fun x => Str.isalnum x = true)
       (list_ascii_of_string "python")
  /\ Str.lower "python" = "python"%string
  /\ 1 <= 3.
Proof.
  apply (word_count_keys
           "Python is great! Python is powerful and Python is fun."
           "python" 3).
  vm_compute. reflexivity.
Defined.

Lemma lower_app (a b : string) :
  Str.lower (a +:+ b) = Str.lower a +:+ Str.lower b.
Proof. induction a as [|c a IH]; [reflexivity|]. simpl. by rewrite IH. Qed.

Lemma split_from_space (a b word : string) (sp : ascii) :
  Str.isspace sp = true ->
  Str.split_from (a +:+ String sp b) word
  = Str.split_from a word ++ Str.split_from b EmptyString.
Proof.
  intros Hsp. revert word. induction a as [|c a IH]; intros word.
  - change (EmptyString +:+ String sp b) with (String sp b).
    cbn [Str.split_from]. rewrite Hsp. by destruct word.
  - change (String c a +:+ String sp b) with (String c (a +:+ String sp b)).
    cbn [Str.split_from]. destruct (Str.isspace c).
    + destruct word; rewrite IH; reflexivity.
    + apply IH.
Qed.

Lemma counted_words_space (a b : string) (sp : ascii) :
  Str.isspace sp = true ->
  counted_words (a +:+ String sp b) = counted_words a ++ counted_words b.
Proof.
  intros Hsp. unfold counted_words, Str.split.
  rewrite lower_app. cbn [Str.lower].
  rewrite split_from_space by (by rewrite lower_char_isspace).
  by rewrite map_app, List.filter_app.
Qed.

(** X8: joining two texts with a whitespace character adds their counts:
    for every word, its count in [a + sp + b] is its count in [a] plus its
    count in [b] (a missing key counting as 0). *)
Theorem word_count_concat (a b w : string) (sp : ascii) :
  Str.isspace sp = true ->
  default 0 (word_count (a +:+ String sp b) !! w)
  = default 0 (word_count a !! w) + default 0 (word_count b !! w).
Proof.
  intros Hsp. rewrite !word_count_lookup, counted_words_space by exact Hsp.
  rewrite occurrences_app.
  pose proof (occurrences_nonneg w (counted_words a)).
  pose proof (occurrences_nonneg w (counted_words b)).
  repeat match goal with
    | |- context [?x =? 0] => destruct (Z.eqb_spec x 0)
    end; unfold default, id; lia.
Qed.

Lemma word_count_concat_witness :
  default 0 (word_count ("to be" +:+ String " " "or not to be") !! "be"%string)
  = default 0 (word_count "to be" !! "be"%string)
    + default 0 (word_count "or not to be" !! "be"%string).
Proof. apply (word_count_concat "to be" "or not to be" "be" " "). reflexivity. Defined.

(** ** [write_json_file] and [read_json_file] *)

Lemma write_failed_cases (e : exn) (w : world) :
  (is_Exception e = true
   /\ write_failed e w
      = (Ok false,
         mkWorld (files w)
           (console w ++ ["Error writing JSON file: " +:+ exn_msg e])))
  \/ (is_Exception e = false /\ write_failed e w = (Raise e, w)).
Proof.
  unfold write_failed, print. destruct (is_Exception e); [left|right]; done.
Qed.

Lemma set_file_other (p q content : string) (w : world) :
  q <> p -> files (set_file p content w) q = files w q.
Proof.
  intros Hne. unfold set_file. cbn [files].
  destruct (String.eqb_spec q p); [done|reflexivity].
Qed.

Lemma set_file_same (p content : string) (w : world) :
  files (set_file p content w) p
  = match files w p with
    | Unreadable e => Unreadable e
    | _ => Readable content
    end.
Proof. unfold set_file. cbn [files]. by rewrite String.eqb_refl. Qed.


(** X10: writing is not atomic.  When the file can be opened and
    [json.dump] raises after writing some pieces, a file that could be read
    is left holding just those pieces, whatever it held before: the old
    content is lost even though the call does not report success. *)
Theorem write_json_file_truncates (open_w : string -> option exn)
  (json_dump : json -> list string * option exn)
  (data : json) (filepath : string) (w : world) (pieces : list string)
  (e : exn) :
  open_w filepath = None ->
  (forall e0, files w filepath <> Unreadable e0) ->
  json_dump data = (pieces, Some e) ->
  files (snd (write_json_file open_w json_dump data filepath w)) filepath
  = Readable (String.concat EmptyString pieces)
  /\ fst (write_json_file open_w json_dump data filepath w) <> Ok true.
Proof.
  intros Hopen Hfile Hdump. unfold write_json_file. rewrite Hopen, Hdump.
  assert (Hset : files (set_file filepath (String.concat EmptyString pieces) w)
                   filepath
                 = Readable (String.concat EmptyString pieces)).
  { rewrite set_file_same.
    destruct (files w filepath) as [|e0|content] eqn:Hstate;
      [reflexivity| |reflexivity].
    exfalso. by apply (Hfile e0). }
  destruct (write_failed_cases e
              (set_file filepath (String.concat EmptyString pieces) w))
    as [[Hc ->]|[Hc ->]];
    cbn [fst snd files]; (split; [exact Hset|discriminate]).
Qed.

Lemma write_json_file_truncates_witness :
  files (snd (write_json_file open_always dump_null (JBool true) "old.json"
                one_file_world)) "old.json"
  = Readable (String.concat EmptyString [])
  /\ fst (write_json_file open_always dump_null (JBool true) "old.json"
            one_file_world)
     <> Ok true.
Proof.
  apply (write_json_file_truncates open_always dump_null (JBool true)
           "old.json" one_file_world []
           (mkExn (OtherException "TypeError")
              "Object is not JSON serializable")).
  - reflexivity.
  - intros e0. vm_compute. discriminate.
  - reflexivity.
Defined.

(** X11: writing a document and reading the file back returns the
    document, provided the path can be opened for writing and is not one
    that cannot be read, [json.dump] writes the document without raising
    and [json.load] parses what was written back to it. *)
Theorem write_then_read_json_file (open_w : string -> option exn)
  (json_dump : json -> list string * option exn)
  (json_load : string -> result json)
  (data : json) (filepath : string) (w : world) (pieces : list string) :
  open_w filepath = None ->
  (forall e, files w filepath <> Unreadable e) ->
  json_dump data = (pieces, None) ->
  json_load (String.concat EmptyString pieces) = Ok data ->
  let written := write_json_file open_w json_dump data filepath w in
  fst written = Ok true
  /\ read_json_file json_load filepath (snd written)
     = (Ok data, snd written).
Proof.
  intros Hopen Hfile Hdump Hload. cbv zeta.
  unfold write_json_file. rewrite Hopen, Hdump. cbn [fst snd].
  split; [reflexivity|].
  unfold read_json_file, open_and_load. rewrite set_file_same.
  destruct (files w filepath) as [|e0|content] eqn:Hstate.
  - by rewrite Hload.
  - exfalso. by apply (Hfile e0).
  - by rewrite Hload.
Qed.

Lemma write_then_read_json_file_witness :
  fst (write_json_file open_always dump_null JNull "new.json" one_file_world)
  = Ok true
  /\ read_json_file load_null "new.json"
       (snd (write_json_file open_always dump_null JNull "new.json"
               one_file_world))
     = (Ok JNull,
        snd (write_json_file open_always dump_null JNull "new.json"
               one_file_world)).
Proof.
  apply (write_then_read_json_file open_always dump_null load_null JNull
           "new.json" one_file_world ["null"%string]).
  - reflexivity.
  - intros e. vm_compute. discriminate.
  - reflexivity.
  - reflexivity.
Defined.

(** X12: [read_json_file] never changes a file, prints at most one line,
    and never lets a [FileNotFoundError] or a [JSONDecodeError] out: any
    other exception of [open] or [json.load] leaves it as it came, with
    nothing printed. *)
Theorem read_json_file_frame (json_load : string -> result json)
  (filepath : string) (w : world) :
  let run := read_json_file json_load filepath w in
  files (snd run) = files w
  /\ (console (snd run) = console w
      \/ exists line, console (snd run) = console w ++ [line])
  /\ (forall e, fst run = Raise e ->
        exn_cls e <> FileNotFoundError
        /\ exn_cls e <> JSONDecodeError
        /\ open_and_load json_load filepath w = Raise e
        /\ snd run = w).
Proof.
  cbv zeta. unfold read_json_file.
  destruct (open_and_load json_load filepath w) as [v|e] eqn:Hbody.
  - cbn [fst snd]. split; [done|]. split; [by left|]. intros e He.
    discriminate.
  - destruct (exn_cls e) eqn:Hcls; cbn [fst snd print files console];
      (split; [done|]);
      (split; [first [by left | right; by eexists]|]);
      intros e' He'; try discriminate;
      injection He' as <-; rewrite Hcls; repeat split; discriminate.
Qed.

(** ** More on [retry] *)

(** X13: with [max_attempts <= 0] the wrapper never calls the function: it
    returns [None] at once, leaving the state and the console as they
    were. *)
Theorem retry_without_attempts {S A : Type} (func : S -> result A * S)
  (max_attempts : Z) (s : S) (out : list string) :
  max_attempts <= 0 ->
  Retry.retry func max_attempts s out = (Ok None, s, out).
Proof.
  intros Hmax. unfold Retry.retry. rewrite py_range_unit.
  replace (Z.to_nat (max_attempts - 0)) with 0%nat by lia. reflexivity.
Qed.

Lemma retry_without_attempts_witness :
  Retry.retry Retry.boom (-1) tt [] = (Ok None, tt, []).
Proof. apply (retry_without_attempts Retry.boom (-1) tt []). lia. Defined.

Section RetryConsole.
Context {S A : Type}.
Variable func : S -> result A * S.

Lemma attempt_lines_shift (s : S) (j c : nat) :
  map (fun i => "Attempt " +:+ str_int (Z.of_nat (j + i) + 1) +:+
                " failed: " +:+
                match fst (func (Retry.after func i s)) with
                | Raise e => exn_msg e
                | Ok _ => EmptyString
                end)
      (seq 1 c)
  = map (fun i => "Attempt " +:+ str_int (Z.of_nat (Datatypes.S j + i) + 1)
                  +:+ " failed: " +:+
                  match fst (func (Retry.after func i (snd (func s)))) with
                  | Raise e => exn_msg e
                  | Ok _ => EmptyString
                  end)
        (seq 0 c).
Proof.
  rewrite <- seq_shift, map_map. apply map_ext. intros i.
  replace (j + Datatypes.S i)%nat with (Datatypes.S j + i)%nat by lia.
  reflexivity.
Qed.

(** The console after a loop whose first [k] attempts fail and are retried,
    and whose next attempt ends the loop. *)
Lemma wrapper_loop_console (k c j : nat) (max_attempts : Z) (s : S)
  (out : list string) :
  (k < c)%nat ->
  Z.of_nat (j + k) < max_attempts ->
  (forall i, (i < k)%nat -> Retry.fails_at func (Retry.after func i s)) ->
  (exists v, fst (func (Retry.after func k s)) = Ok v)
  \/ (Z.of_nat (j + k) = max_attempts - 1
      /\ Retry.fails_at func (Retry.after func k s)) ->
  snd (Retry.wrapper_loop func
         (map (fun i => 0 + Z.of_nat i) (seq j c)) max_attempts s out)
  = out ++ map (fun i => "Attempt " +:+ str_int (Z.of_nat (j + i) + 1) +:+
                         " failed: " +:+
                         match fst (func (Retry.after func i s)) with
                         | Raise e => exn_msg e
                         | Ok _ => EmptyString
                         end)
             (seq 0 k).
Proof.
  revert c j s out.
  induction k as [|k IH]; intros c j s out Hk Hj Hfail Hlast.
  - destruct c as [|c]; [lia|]. cbn [seq map Retry.wrapper_loop].
    rewrite app_nil_r. cbn [Retry.after] in Hlast.
    unfold Retry.fails_at in Hlast.
    destruct (func s) as [r s'] eqn:Hf. cbn [fst] in Hlast.
    destruct Hlast as [[v ->]|[Hend (e & -> & Hc)]]; [reflexivity|].
    rewrite Hc.
    destruct (Z.eqb_spec (0 + Z.of_nat j) (max_attempts - 1)); [done|lia].
  - destruct c as [|c]; [lia|].
    destruct (Hfail 0%nat (Nat.lt_0_succ _)) as (e & He & Hc).
    cbn [Retry.after] in He.
    cbn [seq map Retry.wrapper_loop].
    destruct (func s) as [r s'] eqn:Hf. cbn [fst] in He. subst r.
    rewrite Hc.
    destruct (Z.eqb_spec (0 + Z.of_nat j) (max_attempts - 1)); [lia|].
    rewrite (IH c (Datatypes.S j) s').
    + rewrite <- app_assoc. f_equal. cbn [app]. f_equal.
      * cbn [Retry.after]. rewrite Hf. cbn [fst].
        replace (Z.of_nat (j + 0) + 1) with (0 + Z.of_nat j + 1) by lia.
        reflexivity.
      * rewrite attempt_lines_shift. by rewrite Hf.
    + lia.
    + lia.
    + intros i Hi. specialize (Hfail (Datatypes.S i) ltac:(lia)).
      cbn [Retry.after] in Hfail. by rewrite Hf in Hfail.
    + cbn [Retry.after] in Hlast. rewrite Hf in Hlast. cbn [snd] in Hlast.
      destruct Hlast as [Hv|[Hend Hf']]; [by left|right].
      split; [lia|exact Hf'].
Qed.

End RetryConsole.

(** X14: the wrapper prints one line, ["Attempt i failed: <message>"], for
    every failed call that it retries, and none for the call that ends it.
    When every call raises, that is one line for each of the first
    [max_attempts - 1] calls; when call [k + 1] returns, one line for each
    of the [k] calls before it. *)
Theorem retry_console {S A : Type} (func : S -> result A * S)
  (max_attempts : Z) (s : S) (out : list string) :
  1 <= max_attempts ->
  let n := Z.to_nat max_attempts in
  let run := Retry.retry func max_attempts s out in
  ((forall s', Retry.fails_at func s') ->
   snd run = out ++ map (attempt_line func s) (seq 0 (n - 1)))
  /\ (forall (k : nat) (v : A),
        (k < n)%nat ->
        (forall i, (i < k)%nat ->
                   Retry.fails_at func (Retry.after func i s)) ->
        fst (func (Retry.after func k s)) = Ok v ->
        snd run = out ++ map (attempt_line func s) (seq 0 k)).
Proof.
  intros Hmax n run. unfold run, Retry.retry. rewrite py_range_unit.
  replace (max_attempts - 0) with max_attempts by lia. fold n.
  split.
  - intros Hfail.
    rewrite (wrapper_loop_console func (n - 1) n 0 max_attempts s out).
    + reflexivity.
    + lia.
    + lia.
    + intros i _. apply Hfail.
    + right. split; [lia|apply Hfail].
  - intros k v Hk Hfail Hok.
    rewrite (wrapper_loop_console func k n 0 max_attempts s out).
    + reflexivity.
    + exact Hk.
    + lia.
    + exact Hfail.
    + left. by exists v.
Qed.

Lemma retry_console_witness :
  snd (Retry.retry Retry.boom 3 tt [])
  = ["Attempt 1 failed: boom"%string; "Attempt 2 failed: boom"%string]
  /\ snd (Retry.retry Retry.flaky 3 0%nat [])
     = ["Attempt 1 failed: not yet"%string;
        "Attempt 2 failed: not yet"%string].
Proof.
  split.
  - destruct (retry_console Retry.boom 3 tt [] ltac:(lia)) as [Hall _].
    rewrite Hall; [reflexivity|].
    intros []. exists (mkExn ValueError "boom"). by split.
  - destruct (retry_console Retry.flaky 3 0%nat [] ltac:(lia)) as [_ Hsome].
    rewrite (Hsome 2%nat 42); [reflexivity|vm_compute; lia| |reflexivity].
    intros i Hi. exists (mkExn ValueError "not yet").
    destruct i as [|[|i]]; [by split|by split|lia].
Defined.

Section RetryPasses.
Context {S A : Type}.
Variable func : S -> result A * S.

(** The first [k] attempts fail and are retried, and the next one raises an
    exception that [except Exception] does not catch. *)
Lemma wrapper_loop_passes (k c j : nat) (max_attempts : Z) (s : S)
  (out : list string) (e : exn) :
  (k < c)%nat ->
  Z.of_nat (j + k) < max_attempts ->
  (forall i, (i < k)%nat -> Retry.fails_at func (Retry.after func i s)) ->
  fst (func (Retry.after func k s)) = Raise e ->
  is_Exception e = false ->
  exists out',
    Retry.wrapper_loop func
      (map (fun k => 0 + Z.of_nat k) (seq j c)) max_attempts s out
    = (Raise e, Retry.after func (Datatypes.S k) s, out')
    /\ length out' = (length out + k)%nat.
Proof.
  revert c j s out.
  induction k as [|k IH]; intros c j s out Hk Hj Hfail Hraise Hbase.
  - destruct c as [|c]; [lia|]. cbn [seq map Retry.wrapper_loop Retry.after] in *.
    destruct (func s) as [r s']. cbn [fst snd] in *. subst r.
    rewrite Hbase. exists out. split; [reflexivity|lia].
  - destruct c as [|c]; [lia|].
    destruct (Hfail 0%nat (Nat.lt_0_succ _)) as (e0 & He0 & Hc).
    cbn [Retry.after] in He0.
    cbn [seq map Retry.wrapper_loop].
    destruct (func s) as [r s'] eqn:Hf. cbn [fst] in He0. subst r.
    rewrite Hc.
    destruct (Z.eqb_spec (0 + Z.of_nat j) (max_attempts - 1)); [lia|].
    edestruct (IH c (Datatypes.S j) s') as (out' & Hrun & Hlen).
    + lia.
    + lia.
    + intros i Hi. specialize (Hfail (Datatypes.S i) ltac:(lia)).
      cbn [Retry.after] in Hfail. by rewrite Hf in Hfail.
    + cbn [Retry.after] in Hraise. by rewrite Hf in Hraise.
    + exact Hbase.
    + exists out'. rewrite Hrun. cbn [Retry.after]. rewrite Hf.
      split; [reflexivity|]. rewrite Hlen, length_app. cbn [length]. lia.
Qed.

End RetryPasses.

(** X15: the wrapper retries after an [Exception] only.  When a call raises
    anything else, [KeyboardInterrupt] or [SystemExit] say, after [k]
    calls that failed and were retried, that exception leaves the wrapper
    at once, whatever the number of attempts left: the function has been
    called [k + 1] times and [k] lines have been printed. *)
Theorem retry_passes_other_exceptions {S A : Type}
  (func : S -> result A * S) (max_attempts : Z) (s : S)
  (out : list string) (k : nat) (e : exn) :
  (k < Z.to_nat max_attempts)%nat ->
  (forall i, (i < k)%nat -> Retry.fails_at func (Retry.after func i s)) ->
  fst (func (Retry.after func k s)) = Raise e ->
  is_Exception e = false ->
  exists out',
    Retry.retry func max_attempts s out
    = (Raise e, Retry.after func (Datatypes.S k) s, out')
    /\ length out' = (length out + k)%nat.
Proof.
  intros Hk Hfail Hraise Hbase. unfold Retry.retry. rewrite py_range_unit.
  replace (max_attempts - 0) with max_attempts by lia.
  apply wrapper_loop_passes; [exact Hk|lia|exact Hfail|exact Hraise|exact Hbase].
Qed.

Lemma retry_passes_other_exceptions_witness :
  exists out',
    Retry.retry Retry.interrupted 3 tt []
    = (Raise (mkExn (BaseOnly "KeyboardInterrupt") EmptyString),
       Retry.after Retry.interrupted 1 tt, out')
    /\ length out' = (length (@nil string) + 0)%nat.
Proof.
  apply (retry_passes_other_exceptions Retry.interrupted 3 tt [] 0
           (mkExn (BaseOnly "KeyboardInterrupt") EmptyString)).
  - vm_compute. lia.
  - intros i Hi. lia.
  - reflexivity.
  - reflexivity.
Defined.

(** ** More on [Calculator] *)

Lemma run_call_frame (self : Calculator.t) (c : call) (h : heap)
  (l : positive) :
  l ∈ dom h -> l <> history self ->
  run_call self c h !!! l = h !!! l /\ l ∈ dom (run_call self c h).
Proof.
  intros Hl Hne.
  assert (Happend : forall s,
    list_append (history self) s h !!! l = h !!! l
    /\ l ∈ dom (list_append (history self) s h)).
  { intros s. split; [by apply list_append_other|].
    unfold list_append. rewrite dom_insert_L. apply elem_of_union.
    by right. }
  destruct c as [a b|a b|a b|a b|]; cbn [run_call].
  - unfold add. destruct (PyNum.add a b); cbn [snd]; [apply Happend|done].
  - unfold subtract. destruct (PyNum.sub a b); cbn [snd]; [apply Happend|done].
  - unfold multiply. destruct (PyNum.mul a b); cbn [snd]; [apply Happend|done].
  - unfold divide. destruct (PyNum.eq_zero b); [done|].
    destruct (PyNum.truediv a b); cbn [snd]; [apply Happend|done].
  - unfold get_history, list_copy. cbn [snd]. split.
    + apply lookup_total_insert_ne. intros Heq.
      pose proof (is_fresh (dom h)) as Hfresh. rewrite Heq in Hfresh. done.
    + rewrite dom_insert_L. apply elem_of_union. by right.
Qed.

Lemma run_calls_history (self : Calculator.t) (cs : list call) (h : heap) :
  run_calls self cs h !!! history self = h !!! history self ++ omap logged cs.
Proof.
  unfold run_calls. revert h.
  induction cs as [|c cs IH]; intros h; simpl.
  - by rewrite app_nil_r.
  - rewrite IH, run_call_history, <- app_assoc. f_equal.
    by destruct (logged c).
Qed.

Lemma run_calls_frame (self : Calculator.t) (cs : list call) (h : heap)
  (l : positive) :
  l ∈ dom h -> l <> history self ->
  run_calls self cs h !!! l = h !!! l /\ l ∈ dom (run_calls self cs h).
Proof.
  unfold run_calls. revert h.
  induction cs as [|c cs IH]; intros h Hl Hne; [done|].
  cbn [fold_left].
  destruct (run_call_frame self c h l Hl Hne) as [Hsame Hdom].
  destruct (IH (run_call self c h) Hdom Hne) as [Hrest Hdom'].
  split; [by rewrite Hrest|exact Hdom'].
Qed.

(** X16: the calls made on a calculator change no list of the store other
    than its own history: every list that existed before the calls, the
    history of another calculator or a copy handed out by [get_history]
    among them, is still there and holds the same items afterwards. *)
Theorem calculator_calls_frame (self : Calculator.t) (cs : list call)
  (h : heap) (l : positive) :
  l ∈ dom h -> l <> history self ->
  run_calls self cs h !!! l = h !!! l /\ l ∈ dom (run_calls self cs h).
Proof. apply run_calls_frame. Qed.

Lemma calculator_calls_frame_witness :
  run_calls (fst fresh_calculator) [CAdd (PInt 2) (PInt 3)]
    (snd (get_history (fst fresh_calculator) (snd fresh_calculator)))
  !!! fst (get_history (fst fresh_calculator) (snd fresh_calculator))
  = snd (get_history (fst fresh_calculator) (snd fresh_calculator))
    !!! fst (get_history (fst fresh_calculator) (snd fresh_calculator))
  /\ fst (get_history (fst fresh_calculator) (snd fresh_calculator))
     ∈ dom (run_calls (fst fresh_calculator) [CAdd (PInt 2) (PInt 3)]
              (snd (get_history (fst fresh_calculator)
                      (snd fresh_calculator)))).
Proof.
  apply (calculator_calls_frame (fst fresh_calculator)
           [CAdd (PInt 2) (PInt 3)]
           (snd (get_history (fst fresh_calculator) (snd fresh_calculator)))
           (fst (get_history (fst fresh_calculator)
                   (snd fresh_calculator)))).
  - apply elem_of_dom. exists []. vm_compute. reflexivity.
  - vm_compute. discriminate.
Defined.


Lemma SFadd_comm (x y : spec_float) :
  SFadd Float.prec Float.emax x y = SFadd Float.prec Float.emax y x.
Proof.
  destruct x as [[]|[]| |sx mx ex], y as [[]|[]| |sy my ey];
    try reflexivity.
  cbn [SFadd]. rewrite (Z.min_comm ey ex). f_equal. apply Z.add_comm.
Qed.

Lemma SFmul_comm (x y : spec_float) :
  SFmul Float.prec Float.emax x y = SFmul Float.prec Float.emax y x.
Proof.
  destruct x as [sx|sx| |sx mx ex], y as [sy|sy| |sy my ey];
    cbn [SFmul]; rewrite ?(xorb_comm sy sx); try reflexivity.
  by rewrite (Pos.mul_comm my mx), (Z.add_comm ey ex).
Qed.

Lemma PyNum_add_comm (a b : num) : PyNum.add a b = PyNum.add b a.
Proof.
  destruct a as [x|x], b as [y|y]; cbn [PyNum.add PyNum.to_float rbind].
  - by rewrite Z.add_comm.
  - destruct (Float.of_int x); cbn [rbind]; [|done].
    unfold Float.add. by rewrite SFadd_comm.
  - destruct (Float.of_int y); cbn [rbind]; [|done].
    unfold Float.add. by rewrite SFadd_comm.
  - unfold Float.add. by rewrite SFadd_comm.
Qed.

Lemma PyNum_mul_comm (a b : num) : PyNum.mul a b = PyNum.mul b a.
Proof.
  destruct a as [x|x], b as [y|y]; cbn [PyNum.mul PyNum.to_float rbind].
  - by rewrite Z.mul_comm.
  - destruct (Float.of_int x); cbn [rbind]; [|done].
    unfold Float.mul. by rewrite SFmul_comm.
  - destruct (Float.of_int y); cbn [rbind]; [|done].
    unfold Float.mul. by rewrite SFmul_comm.
  - unfold Float.mul. by rewrite SFmul_comm.
Qed.


(** ** Zero and negative numbers *)

Lemma binary_round_aux_opp (mx ex : Z) (lx : location) :
  binary_round_aux 53 1024 true mx ex lx
  = SFopp (binary_round_aux 53 1024 false mx ex lx).
Proof.
  unfold binary_round_aux.
  destruct (shr_fexp 53 1024 mx ex lx) as [mrs' e'].
  destruct (shr_fexp 53 1024
              (round_nearest_even (shr_m mrs') (loc_of_shr_record mrs'))
              e' loc_Exact) as [mrs'' e''].
  destruct (shr_m mrs''); [reflexivity| |reflexivity].
  destruct (e'' <=? 1024 - 53); reflexivity.
Qed.

(** [float(-n)] is [-float(n)], and overflows when [float(n)] does. *)
Lemma of_int_neg (p : positive) :
  Float.of_int (Zneg p)
  = match Float.of_int (Zpos p) with
    | Ok x => Ok (SFopp x)
    | Raise e => Raise e
    end.
Proof.
  unfold Float.of_int, Float.prec, Float.emax. cbn [binary_normalize].
  unfold binary_round.
  destruct (shl_align p 0 (fexp 53 1024 (Zpos (digits2_pos p) + 0)))
    as [mz ez].
  rewrite binary_round_aux_opp.
  destruct (binary_round_aux 53 1024 false (Zpos mz) ez loc_Exact)
    as [[]|[]| |s m e]; reflexivity.
Qed.

(** [float(n)] of a positive int is a positive normal double, unless it
    overflows. *)
Lemma of_int_pos_cases (n : Z) :
  1 <= n ->
  (exists (m : positive) (e : Z), Float.of_int n = Ok (S754_finite false m e))
  \/ Float.of_int n
     = Raise (mkExn OverflowError "int too large to convert to float").
Proof.
  intros Hn. destruct (Z.lt_ge_cases n (2 ^ 53)) as [Hlt|Hge].
  { destruct (of_int_small n ltac:(lia)) as (m & e & Hx & _).
    left. by exists m, e. }
  destruct (normalize_big n Hge) as (r & Hm & Hr & Hrun).
  unfold Float.of_int, Float.prec, Float.emax. rewrite Hrun. clear Hrun.
  assert (Hlog : 53 <= Z.log2 n) by (apply Z.log2_le_pow2; lia).
  destruct (_ =? 2 ^ 53).
  - destruct (_ <=? 971); [left; by eexists _, _|by right].
  - destruct (_ <=? 971); [left; by eexists _, _|by right].
Qed.

Lemma of_int_nonzero (n : Z) (x : spec_float) :
  n <> 0 -> Float.of_int n = Ok x -> PyNum.is_zero x = false.
Proof.
  intros Hn Hx. destruct n as [|p|p]; [done| |].
  - destruct (of_int_pos_cases (Zpos p) ltac:(lia)) as [(m & e & Hf)|Hf];
      rewrite Hf in Hx; [|discriminate].
    injection Hx as <-. reflexivity.
  - rewrite of_int_neg in Hx.
    destruct (of_int_pos_cases (Zpos p) ltac:(lia)) as [(m & e & Hf)|Hf];
      rewrite Hf in Hx; [|discriminate].
    injection Hx as <-. reflexivity.
Qed.

Lemma of_int_raises (n : Z) (e : exn) :
  Float.of_int n = Raise e ->
  e = mkExn OverflowError "int too large to convert to float".
Proof.
  unfold Float.of_int.
  destruct (binary_normalize Float.prec Float.emax n 0 false);
    intros H; by inversion H.
Qed.

Lemma to_float_raises (a : num) (e : exn) :
  PyNum.to_float a = Raise e ->
  e = mkExn OverflowError "int too large to convert to float".
Proof. destruct a as [z|x]; [apply of_int_raises|discriminate]. Qed.

Lemma float_op_raises (f : spec_float -> spec_float -> spec_float)
  (a b : num) (e : exn) :
  (let* x := PyNum.to_float a in
   let* y := PyNum.to_float b in
   Ok (PFloat (f x y))) = Raise e ->
  exn_cls e = OverflowError.
Proof.
  destruct (PyNum.to_float a) as [x|e1] eqn:Ha; cbn [rbind].
  - destruct (PyNum.to_float b) as [y|e2] eqn:Hb; cbn [rbind];
      [discriminate|].
    intros [= <-]. by rewrite (to_float_raises b e2 Hb).
  - intros [= <-]. by rewrite (to_float_raises a e1 Ha).
Qed.

Lemma truediv_raises (a b : num) (e : exn) :
  PyNum.eq_zero b = false ->
  PyNum.truediv a b = Raise e -> exn_cls e = OverflowError.
Proof.
  intros Hb. destruct a as [x|x], b as [y|y]; cbn [PyNum.eq_zero] in Hb.
  - cbn [PyNum.truediv]. unfold PyNum.int_truediv. rewrite Hb.
    destruct (x =? 0); [discriminate|]. cbv zeta.
    destruct (Z.div_eucl _ _) as [q r].
    destruct (binary_round_aux _ _ _ _ _ _); cbn [rbind];
      intros H; by inversion H.
  - cbn [PyNum.truediv PyNum.to_float].
    destruct (Float.of_int x) as [fx|e1] eqn:Hx; cbn [rbind].
    + rewrite Hb. discriminate.
    + intros [= <-]. by rewrite (of_int_raises x e1 Hx).
  - cbn [PyNum.truediv PyNum.to_float rbind].
    destruct (Float.of_int y) as [fy|e1] eqn:Hy; cbn [rbind].
    + rewrite (of_int_nonzero y fy); [discriminate| |exact Hy].
      intros ->. discriminate.
    + intros [= <-]. by rewrite (of_int_raises y e1 Hy).
  - cbn [PyNum.truediv PyNum.to_float rbind]. rewrite Hb. discriminate.
Qed.



(** ** [format_file_size] below one kilobyte *)

Lemma append_assoc (a b c : string) : (a +:+ b) +:+ c = a +:+ b +:+ c.
Proof.
  induction a as [|x a IH]; [reflexivity|].
  change ((String x a +:+ b) +:+ c) with (String x ((a +:+ b) +:+ c)).
  by rewrite IH.
Qed.

Lemma fixed1_int (n : Z) : FloatText.fixed1 n 1 = str_int n +:+ ".0".
Proof.
  unfold FloatText.fixed1, FloatText.round_half_even.
  rewrite Z.div_1_r, Z.mod_1_r.
  change (2 * 0 ?= 1) with Lt. cbv iota.
  replace (10 * n / 10) with n by (Z.div_mod_to_equations; lia).
  replace ((10 * n) mod 10) with 0 by (Z.div_mod_to_equations; lia).
  reflexivity.
Qed.

(** An int below 2^53 printed with [.1f] is the int followed by [.0]. *)
Lemma fixed1_of_int (n : Z) (m : positive) (e : Z) :
  1 <= n -> e <= 0 -> Zpos m = n * 2 ^ (- e) ->
  FloatText.fixed1 (FloatText.numerator m e) (FloatText.denominator e)
  = str_int n +:+ ".0".
Proof.
  intros Hn He Hm. unfold FloatText.numerator, FloatText.denominator.
  destruct (Z.leb_spec 0 e).
  - replace e with 0 in * by lia. rewrite Hm. cbn [Z.opp Z.pow Z.pow_pos].
    rewrite !Z.mul_1_r. apply fixed1_int.
  - rewrite Hm, <- fixed1_int.
    replace (2 ^ (- e)) with (1 * 2 ^ (- e)) at 2 by lia.
    apply fixed1_scale; [lia|]. apply Z.pow_pos_nonneg; lia.
Qed.

Lemma str_int_neg (p : positive) :
  str_int (Zneg p) = "-" +:+ str_int (Zpos p).
Proof. reflexivity. Qed.

Lemma lt_f1024 (size : Z) :
  PyNum.int_lt_float size Float.f1024 = (size <? 1024).
Proof.
  unfold PyNum.int_lt_float, Float.f1024.
  change (FloatText.numerator 4503599627370496 (-42)) with (1024 * 2 ^ 42).
  change (FloatText.denominator (-42)) with (2 ^ 42).
  destruct (Z.ltb_spec size 1024),
    (Z.ltb_spec (size * 2 ^ 42) (1024 * 2 ^ 42)); try reflexivity; lia.
Qed.

Lemma format_file_size_first (size : Z) :
  size < 1024 ->
  format_file_size size
  = let* s := PyNum.format_1f (PInt size) in Ok (s +:+ " B").
Proof.
  intros Hsize. unfold format_file_size, size_units.
  cbn [format_file_size_loop PyNum.lt]. rewrite lt_f1024.
  destruct (Z.ltb_spec size 1024); [reflexivity|lia].
Qed.

(** X20: a size below 1024, zero and negative sizes among them, is never
    scaled: it is printed as it is, followed by [.0 B], when it is above
    [-2^53]; every negative size is reported in [B] with its sign, however
    large it is, down to [-(2^1024 - 2^970)], and from [-2^1024] on the
    call raises [OverflowError]. *)
Theorem format_file_size_below_kilobyte :
  (forall size : Z,
     - 2 ^ 53 < size < 1024 ->
     format_file_size size = Ok (str_int size +:+ ".0 B"))
  /\ (forall size : Z,
        - (2 ^ 1024 - 2 ^ 970) < size < 0 ->
        exists s : string, format_file_size size = Ok ("-" +:+ s +:+ " B"))
  /\ (forall size : Z,
        size <= - 2 ^ 1024 ->
        format_file_size size
        = Raise (mkExn OverflowError "int too large to convert to float")).
Proof.
  split; [|split].
  - intros size Hsize. rewrite format_file_size_first by lia.
    unfold PyNum.format_1f. cbn [PyNum.to_float].
    destruct size as [|p|p].
    + reflexivity.
    + destruct (of_int_small (Zpos p) ltac:(lia))
        as (m & e & Hx & Hd & He & Hm).
      assert (Hlog : Z.log2 (Zpos p) < 53) by (apply Z.log2_lt_pow2; lia).
      rewrite Hx. cbn [rbind FloatText.format_1f].
      change (EmptyString +:+ ?s) with s.
      rewrite (fixed1_of_int (Zpos p)) by lia.
      by rewrite append_assoc.
    + destruct (of_int_small (Zpos p) ltac:(lia))
        as (m & e & Hx & Hd & He & Hm).
      assert (Hlog : Z.log2 (Zpos p) < 53) by (apply Z.log2_lt_pow2; lia).
      rewrite of_int_neg, Hx. cbn [rbind SFopp negb FloatText.format_1f].
      rewrite (fixed1_of_int (Zpos p)) by lia.
      rewrite str_int_neg. by rewrite !append_assoc.
  - intros size Hsize. rewrite format_file_size_first by lia.
    unfold PyNum.format_1f. cbn [PyNum.to_float].
    destruct size as [|p|p]; [lia|lia|].
    rewrite of_int_neg.
    assert (Hfin : exists m e, Float.of_int (Zpos p)
                               = Ok (S754_finite false m e)).
    { destruct (Z.lt_ge_cases (Zpos p) (2 ^ 53)).
      - destruct (of_int_small (Zpos p) ltac:(lia)) as (m & e & Hx & _).
        by exists m, e.
      - destruct (of_int_big (Zpos p) ltac:(lia)) as (m & e & Hx & _).
        by exists m, e. }
    destruct Hfin as (m & e & ->).
    cbn [rbind SFopp negb FloatText.format_1f].
    eexists. by rewrite append_assoc.
  - intros size Hsize.
    assert (Hbig : 1024 < 2 ^ 1024) by reflexivity.
    rewrite format_file_size_first by lia.
    unfold PyNum.format_1f. cbn [PyNum.to_float].
    destruct size as [|p|p]; [lia|lia|].
    rewrite of_int_neg, of_int_overflow by lia. reflexivity.
Qed.

Lemma format_file_size_below_kilobyte_witness :
  format_file_size (-5000000) = Ok "-5000000.0 B"%string
  /\ format_file_size 0 = Ok "0.0 B"%string.
Proof.
  destruct format_file_size_below_kilobyte as (Hsmall & _).
  split.
  - rewrite (Hsmall (-5000000)); [reflexivity|lia].
  - rewrite (Hsmall 0); [reflexivity|lia].
Defined.

(** ** [is_prime] beyond 2^53 *)

(** The exponent of [float(n)]: the double has 53 bits, so [n] has at least
    [e + 52]. *)
Lemma of_int_big_exp (n : Z) (m : positive) (e : Z) :
  2 ^ 53 <= n ->
  Float.of_int n = Ok (S754_finite false m e) ->
  2 ^ (e + 51) <= n.
Proof.
  intros Hn Hx.
  destruct (normalize_big n Hn) as (r & _ & _ & Hrun).
  unfold Float.of_int, Float.prec, Float.emax in Hx. rewrite Hrun in Hx.
  clear Hrun.
  assert (Hlog : 53 <= Z.log2 n) by (apply Z.log2_le_pow2; lia).
  pose proof (Z.log2_spec n ltac:(lia)) as [Hlo _].
  assert (He : e <= Z.log2 n - 51).
  { repeat match type of Hx with
      | context [if ?c then _ else _] => destruct c
      end; try discriminate; injection Hx as _ <-; lia. }
  transitivity (2 ^ Z.log2 n); [apply Z.pow_le_mono_r; lia|exact Hlo].
Qed.

(** [int(x ** 0.5)] of a normal double [m * 2^e] with [e >= 0] is at most
    [2^(27 + e // 2)]. *)
Lemma sqrt_float_upper (m : positive) (e : Z) :
  Zpos (digits2_pos m) = 53 ->
  0 <= e <= 971 ->
  exists r : Z,
    Float.to_int (Float.pow_half (S754_finite false m e)) = Ok r
    /\ r <= 2 ^ (27 + e / 2).
Proof.
  intros Hd He.
  pose proof (digits2_bounds m) as Hmb. rewrite Hd in Hmb.
  change (53 - 1) with 52 in Hmb.
  unfold Float.pow_half, Float.prec, Float.emax, SFsqrt, SFsqrt_core_binary.
  cbn [Zdigits2]. rewrite Hd, !Z.div2_div.
  set (h := (53 + e + 1) / 2).
  assert (Hh : h = 27 + e / 2) by (unfold h; Z.div_mod_to_equations; lia).
  assert (He2 : 0 <= e / 2 <= 485) by (Z.div_mod_to_equations; lia).
  rewrite fexp_normal by lia.
  replace (Z.min (h - 53) (e / 2)) with (h - 53) by lia.
  rewrite <- Hh.
  assert (Hs : e - 2 * (h - 53) = 52 \/ e - 2 * (h - 53) = 53)
    by (Z.div_mod_to_equations; lia).
  assert (Hshift : forall s : Z,
            0 < s ->
            match s with
            | 0 => Zpos m
            | Zpos _ => Z.shiftl (Zpos m) s
            | Zneg _ => 0
            end = Zpos m * 2 ^ s).
  { intros [|p|p] Hp; try lia. by rewrite Z.shiftl_mul_pow2. }
  rewrite Hshift by lia. clear Hshift.
  set (s := e - 2 * (h - 53)) in *.
  assert (Hpow : 2 ^ 52 <= 2 ^ s <= 2 ^ 53).
  { destruct Hs as [-> | ->]; lia. }
  pose proof (Z.sqrtrem_spec (Zpos m * 2 ^ s) ltac:(nia)) as Hspec.
  pose proof (Z.sqrtrem_sqrt (Zpos m * 2 ^ s)) as Hsq.
  destruct (Z.sqrtrem (Zpos m * 2 ^ s)) as [q rem]. simpl in Hsq. subst q.
  set (q := Z.sqrt (Zpos m * 2 ^ s)) in *.
  assert (Hq52 : 2 ^ 52 <= q).
  { unfold q. apply Z.sqrt_le_square; [nia|lia|]. nia. }
  assert (Hq53 : q < 2 ^ 53).
  { unfold q. apply Z.sqrt_lt_square; [nia|lia|]. nia. }
  destruct q as [|qp|qp] eqn:Hqp; try lia.
  assert (Hdq : Zpos (digits2_pos qp) = 53)
    by (apply digits2_unique; change (53 - 1) with 52; lia).
  rewrite binary_round_aux_53 by lia.
  set (l := if rem =? 0 then loc_Exact
            else loc_Inexact (if rem <=? Zpos qp then Lt else Gt)).
  assert (Hvalue : forall (M : positive) (x : Z),
            Zpos M <= 2 ^ (53 - x) -> 0 <= x <= 1 -> 
            exists r, Float.to_int (S754_finite false M (h - 53 + x)) = Ok r
                      /\ r <= 2 ^ h).
  { intros M x HM Hx. cbn [Float.to_int]. eexists. split; [reflexivity|].
    destruct (Z.leb_spec 0 (h - 53 + x)).
    - assert (Hsplit : 2 ^ h = 2 ^ (53 - x) * 2 ^ (h - 53 + x)).
      { rewrite <- pow2_split by lia. f_equal. lia. }
      rewrite Hsplit.
      apply Z.mul_le_mono_nonneg_r; [apply Z.pow_nonneg; lia|exact HM].
    - apply Z.div_le_upper_bound; [apply Z.pow_pos_nonneg; lia|].
      assert (Hsplit : 2 ^ (- (h - 53 + x)) * 2 ^ h = 2 ^ (53 - x)).
      { rewrite <- pow2_split by lia. f_equal. lia. }
      rewrite Hsplit. exact HM. }
  destruct (round_nearest_even_cases (Zpos qp) l) as [HM|HM]; rewrite HM.
  - destruct (Z.eqb_spec (Zpos qp) (2 ^ 53)); [lia|].
    cbn [Z.to_pos].
    destruct (Hvalue qp 0 ltac:(change (2 ^ (53 - 0)) with (2 ^ 53); lia)
                ltac:(lia)) as (r & Hr & Hle).
    rewrite Z.add_0_r in Hr. by exists r.
  - destruct (Z.eqb_spec (Zpos qp + 1) (2 ^ 53)) as [Heq|Hne].
    + apply (Hvalue 4503599627370496%positive 1); [reflexivity|lia].
    + replace (Zpos qp + 1) with (Zpos (qp + 1)) in * by lia.
      cbn [Z.to_pos].
      destruct (Hvalue (qp + 1)%positive 0
                  ltac:(change (2 ^ (53 - 0)) with (2 ^ 53); lia) ltac:(lia))
        as (r & Hr & Hle).
      rewrite Z.add_0_r in Hr. by exists r.
Qed.

Lemma is_prime_big (num : Z) :
  2 ^ 53 <= num < 2 ^ 1024 - 2 ^ 970 -> num mod 2 <> 0 ->
  exists r, is_prime num = Ok (is_prime_loop num (py_range 3 (r + 1) 2))
            /\ r < num.
Proof.
  intros Hnum Hodd.
  destruct (of_int_big num Hnum) as (m & e & Hx & Hd & He).
  pose proof (of_int_big_exp num m e ltac:(lia) Hx) as Hexp.
  destruct (sqrt_float_upper m e Hd ltac:(lia)) as (r & Hr & Hbound).
  exists r. split.
  - unfold is_prime.
    destruct (Z.ltb_spec num 2); [lia|].
    destruct (Z.eqb_spec num 2); [lia|].
    destruct (Z.eqb_spec (num mod 2) 0); [lia|].
    rewrite Hx. cbn [rbind]. rewrite Hr. reflexivity.
  - assert (2 ^ (27 + e / 2) < 2 ^ (e + 51)); [|lia].
    apply Z.pow_lt_mono_r; [lia| |]; Z.div_mod_to_equations; lia.
Qed.

Lemma is_prime_accepts_primes (num : Z) :
  num < 2 ^ 1024 - 2 ^ 970 ->
  exists b : bool, is_prime num = Ok b /\ (Z.prime num -> b = true).
Proof.
  intros Hnum.
  destruct (Z.lt_ge_cases num (2 ^ 53)) as [Hlt|Hge].
  { destruct (is_prime_below num Hlt) as (b & Hb & Hdec).
    exists b. split; [exact Hb|apply Hdec]. }
  destruct (Z.eq_dec (num mod 2) 0) as [Heven|Hodd].
  { exists false. split.
    - unfold is_prime.
      destruct (Z.ltb_spec num 2); [lia|].
      destruct (Z.eqb_spec num 2); [lia|].
      by rewrite Heven.
    - intros Hp. exfalso.
      apply Z.mod_divide in Heven; [|lia].
      destruct Hp as [_ Hnone]. apply (Hnone 2); [lia|exact Heven]. }
  destruct (is_prime_big num ltac:(lia) Hodd) as (r & Hrun & Hr).
  exists (is_prime_loop num (py_range 3 (r + 1) 2)).
  split; [exact Hrun|].
  intros Hprime. apply is_prime_loop_true. intros i Hi Hmod.
  apply elem_of_py_range_odd in Hi as [Hi _].
  apply Z.mod_divide in Hmod; [|lia].
  destruct Hprime as [_ Hnone]. apply (Hnone i); [lia|exact Hmod].
Qed.



Lemma find_primes_loop_keeps (nums : list Z) :
  (forall n, n ∈ nums -> n < 2 ^ 1024 - 2 ^ 970) ->
  exists l, find_primes_loop nums = Ok l
            /\ (forall p, p ∈ nums -> Z.prime p -> p ∈ l)
            /\ l `sublist_of` nums.
Proof.
  induction nums as [|n nums IH]; intros Hfit.
  - exists []. split; [reflexivity|]. split; [|done].
    intros p Hp. by apply elem_of_nil in Hp.
  - destruct IH as (rest & Hrest & Hmem & Hsub).
    { intros k Hk. apply Hfit. by right. }
    destruct (is_prime_accepts_primes n) as (b & Hb & Hacc).
    { apply Hfit. by left. }
    exists (if b then n :: rest else rest).
    split; [simpl; by rewrite Hb, Hrest|]. split.
    + intros p Hp Hprime. apply elem_of_cons in Hp as [->|Hp].
      * rewrite (Hacc Hprime). by left.
      * destruct b; [right|]; by apply Hmem.
    + destruct b; [by apply sublist_skip|by apply sublist_cons].
Qed.


